(** * The configuration patcher of [infrastructure/zk/src/init.ts]

    A shallow embedding of [updateConfigFile] and of the JavaScript string
    and array primitives it calls, followed by the properties of the
    structured-text configuration patcher.

    Modelling conventions.
    - A JavaScript string is a [string]; each [ascii] stands for one code
      unit in the range 0..255.  The white space of [\s] and of
      [String.prototype.trim] is the set of such code units that JavaScript
      classifies as white space: 9..13, 32 and 160.
    - [lines] is a [list string]; [Array.prototype.splice] is written out
      with its clamping of the start position and of the delete count.
    - [lineIndices] and [sectionIndices] are objects created by [{}] and
      used as maps from property names to line numbers.  Their own
      properties are a finite map [gmap string nat]; reading a property
      goes on to [Object.prototype] when the object has no own property of
      that name ([getIndex]), and the assignment to [__proto__] stores
      nothing ([setIndex]).
    - [fs.readFileSync] and [fs.writeFileSync] are the input and the result
      of the pure function [updateConfigFile]: content in, content out.
    - A [number] value is an integer; a template literal prints it in
      plain decimal when it is a safe integer, of magnitude at most
      2^53 - 1 ([printsInDecimal]).  The statements that spell the text
      of a written line are made for such values and for strings. *)

From Stdlib Require Import Ascii String ZArith.
From stdpp Require Import gmap strings list fin_maps pretty.

Local Open Scope string_scope.
Local Open Scope nat_scope.

(** ** String primitives *)

Module Js.

(** White space as matched by [\s] and removed by [trim()]. *)
Definition isSpace (c : ascii) : bool :=
  let n := nat_of_ascii c in
  ((9 <=? n) && (n <=? 13) || (n =? 32) || (n =? 160))%nat.

Definition isChar (d c : ascii) : bool := bool_decide (c = d).

Fixpoint allSpace (s : string) : bool :=
  match s with
  | "" => true
  | String c r => isSpace c && allSpace r
  end.

(** [s.trimStart()] *)
Fixpoint trimStart (s : string) : string :=
  match s with
  | "" => ""
  | String c r => if isSpace c then trimStart r else s
  end.

(** [s.trimEnd()] *)
Fixpoint trimEnd (s : string) : string :=
  match s with
  | "" => ""
  | String c r => if allSpace s then "" else String c (trimEnd r)
  end.

(** [s.trim()] *)
Definition trim (s : string) : string := trimEnd (trimStart s).

(** [s.startsWith(c)] for a one-character search string. *)
Definition startsWith (c : ascii) (s : string) : bool :=
  match s with
  | "" => false
  | String d _ => isChar c d
  end.

(** [s.split('\n')]: never empty, the pieces hold no line break. *)
Fixpoint split (s : string) : list string :=
  match s with
  | "" => [""]
  | String c r =>
      if isChar "010" c then "" :: split r
      else match split r with
           | [] => [String c ""]
           | h :: t => String c h :: t
           end
  end.

(** [a.join('\n')] *)
Fixpoint join (a : list string) : string :=
  match a with
  | [] => ""
  | [x] => x
  | x :: r => x +:+ String "010" (join r)
  end.

(** [a.splice(start, deleteCount, ...items)] on the array value, for a
    start that is a non-negative integer: the start is clamped to the
    length and the delete count to what is left behind it, which is what
    [take] and [drop] do. *)
Definition splice {A} (a : list A) (start deleteCount : nat) (items : list A)
  : list A :=
  take start a ++ items ++ drop (start + deleteCount) a.

(** [a < b] on two strings: the code units are compared from the left, and
    a proper prefix is smaller than the string it starts. *)
Fixpoint ltString (a b : string) : bool :=
  match a, b with
  | _, "" => false
  | "", String _ _ => true
  | String x a', String y b' =>
      if isChar y x then ltString a' b'
      else (nat_of_ascii x <? nat_of_ascii y)%nat
  end.

(** [a >= b] on two strings is [!(b > a)], that is, not [a < b]. *)
Definition geString (a b : string) : bool := negb (ltString a b).

End Js.

(** ** Line classification: the two regular expressions of the scan *)

(** The text up to the first occurrence of [d], and the text behind it;
    [None] when [d] does not occur. *)
Fixpoint cut (d : ascii) (s : string) : option (string * string) :=
  match s with
  | "" => None
  | String c r =>
      if Js.isChar d c then Some ("", r)
      else match cut d r with
           | Some (a, b) => Some (String c a, b)
           | None => None
           end
  end.

(** [line.match(/^\s*\[([^\]]+)\]\s*$/)], giving capture group 1.  The
    leading [\s*] takes all the white space since ['['] is none; the group
    takes everything up to the first [']'] and must not be empty; what
    follows must be white space up to the end. *)
Definition sectionMatch (line : string) : option string :=
  match Js.trimStart line with
  | String "[" r =>
      match cut "]" r with
      | Some (String c name, rest) =>
          if Js.allSpace rest then Some (String c name) else None
      | _ => None
      end
  | _ => None
  end.

(** The second [line.match] of the scan, giving capture group 1.  Its
    pattern is: group 1 [([^=]+)], then [=], then group 2, any characters
    up to the end.  The pattern is not anchored: the leftmost match starts
    at the first character that is not ['='], and group 1 runs from there
    up to the next ['='], which must exist.  Group 2 may be empty and never
    prevents a match. *)
Fixpoint keyMatch (line : string) : option string :=
  match line with
  | "" => None
  | String c r =>
      if Js.isChar "=" c then keyMatch r
      else match cut "=" line with
           | Some (k, _) => Some k
           | None => None
           end
  end.

(** ** Data model *)

(** [value: string | number | null] *)
Inductive Value :=
  | VString (s : string)
  | VNumber (n : Z)
  | VNull.

(** [interface ConfigLine]; the optional field [lineIndex] is never read
    or written by [updateConfigFile] and is left out. *)
Record ConfigLine := {
  key : string;
  value : Value;
  section : option string
}.

(** The local variables of [updateConfigFile] that the edit loop reads and
    writes. *)
Record State := {
  lines : list string;
  lineIndices : gmap string nat;
  sectionIndices : gmap string nat;
  addedContent : option string
}.

(** String conversion of a value inside a template literal; for a number
    it is the conversion of the safe integers, see [printsInDecimal]. *)
Definition valueToString (v : Value) : string :=
  match v with
  | VString s => s
  | VNumber n => pretty n
  | VNull => "null"
  end.

(** The template literal [`${configLine.key}=${configLine.value}`]. *)
Definition keyValueLine (e : ConfigLine) : string :=
  key e +:+ "=" +:+ valueToString (value e).

(** Property key of [sectionIndices[configLine.section!]]: the non-null
    assertion is erased at run time and a [null] section is converted to
    the property name ["null"]. *)
Definition sectionKey (s : option string) : string :=
  match s with
  | Some n => n
  | None => "null"
  end.

(** The values whose conversion to a string [valueToString] gives: strings,
    and the numbers that are safe integers ([Number.MAX_SAFE_INTEGER] is
    2^53 - 1), which are printed digit for digit. *)
Definition printsInDecimal (v : Value) : Prop :=
  match v with
  | VNumber n => (Z.abs n ≤ 9007199254740991)%Z
  | _ => True
  end.

(** ** Objects used as maps *)

(** The property names that an object created by [{}] inherits from
    [Object.prototype]. *)
Definition prototypeNames : list string :=
  [ "constructor"; "__defineGetter__"; "__defineSetter__"; "hasOwnProperty";
    "__lookupGetter__"; "__lookupSetter__"; "isPrototypeOf";
    "propertyIsEnumerable"; "toString"; "valueOf"; "__proto__";
    "toLocaleString" ].

(** What reading [object[name]] gives: [undefined], a line number stored
    by the code, or a function or object inherited from the prototype. *)
Inductive Property :=
  | Undefined
  | Index (i : nat)
  | Inherited.

(** [object[k]]: the own property if there is one, else the inherited
    one, else [undefined]. *)
Definition getIndex (m : gmap string nat) (k : string) : Property :=
  match m !! k with
  | Some i => Index i
  | None => if bool_decide (k ∈ prototypeNames) then Inherited else Undefined
  end.

(** [object[k] = i]: an own property is created or overwritten, except for
    [__proto__], whose inherited setter ignores a number. *)
Definition setIndex (k : string) (i : nat) (m : gmap string nat)
  : gmap string nat :=
  if bool_decide (k = "__proto__") then m else <[k := i]> m.

(** ** The initial scan *)

(** One iteration of the scanning loop, at line number [i]. *)
Definition scanLine (i : nat) (line : string)
    (ix : gmap string nat * gmap string nat) : gmap string nat * gmap string nat :=
  if Js.startsWith "#" line then ix
  else
    let sx := match sectionMatch line with
              | Some m => setIndex (Js.trim m) i ix.2
              | None => ix.2
              end in
    let kx := match keyMatch line with
              | Some m => setIndex (Js.trim m) i ix.1
              | None => ix.1
              end in
    (kx, sx).

(** The loop [for (let i = ...; i < lines.length; i++)], started at [i]. *)
Fixpoint scanFrom (i : nat) (ls : list string)
    (ix : gmap string nat * gmap string nat) : gmap string nat * gmap string nat :=
  match ls with
  | [] => ix
  | l :: r => scanFrom (S i) r (scanLine i l ix)
  end.

(** The state on entry to the edit loop. *)
Definition load (content : string) : State :=
  let ls := Js.split content in
  let ix := scanFrom 0 ls (∅, ∅) in
  {| lines := ls; lineIndices := ix.1; sectionIndices := ix.2;
     addedContent := None |}.

(** ** Index maintenance *)

(** [Object.entries(m).filter(([k, index]) => index > pos)
      .forEach(([k, index]) => { m[k] = f(index); })]:
    the entries are listed first, then each selected one is stored back. *)
Definition storeEntry (f : nat → nat) (acc : gmap string nat)
    (e : string * nat) : gmap string nat :=
  <[e.1 := f e.2]> acc.

Definition shiftEntries (f : nat → nat) (pos : nat) (m : gmap string nat)
  : gmap string nat :=
  foldl (storeEntry f) m (filter (λ e, pos < e.2) (map_to_list m)).

(** ** The edit loop *)

(** The callback of [updatedConfigLines.forEach].  When [lineIndex] or
    [sectionIndex] is an inherited function or object, it is not
    [undefined]; as a position of [splice] it is [NaN], which counts as 0
    (and so does [sectionIndex + 1], a string), and no comparison
    [index > lineIndex] is true, so that no entry is shifted. *)
Definition applyEdit (st : State) (configLine : ConfigLine) : State :=
  match getIndex (lineIndices st) (key configLine) with
  | Index lineIndex =>
      match value configLine with
      | VNull =>
          {| lines := Js.splice (lines st) lineIndex 1 [];
             lineIndices := shiftEntries (λ index, index - 1) lineIndex (lineIndices st);
             sectionIndices := shiftEntries (λ index, index - 1) lineIndex (sectionIndices st);
             addedContent := addedContent st |}
      | _ =>
          {| lines := Js.splice (lines st) lineIndex 1 [keyValueLine configLine];
             lineIndices := lineIndices st;
             sectionIndices := sectionIndices st;
             addedContent := addedContent st |}
      end
  | Inherited =>
      match value configLine with
      | VNull =>
          {| lines := Js.splice (lines st) 0 1 [];
             lineIndices := lineIndices st;
             sectionIndices := sectionIndices st;
             addedContent := addedContent st |}
      | _ =>
          {| lines := Js.splice (lines st) 0 1 [keyValueLine configLine];
             lineIndices := lineIndices st;
             sectionIndices := sectionIndices st;
             addedContent := addedContent st |}
      end
  | Undefined =>
      match value configLine with
      | VNull => st
      | _ =>
          match getIndex (sectionIndices st) (sectionKey (section configLine)) with
          | Index sectionIndex =>
              {| lines := Js.splice (lines st) (sectionIndex + 1) 0 [keyValueLine configLine];
                 lineIndices := shiftEntries (λ index, index + 1) sectionIndex (lineIndices st);
                 sectionIndices := shiftEntries (λ index, index + 1) sectionIndex (sectionIndices st);
                 addedContent := addedContent st |}
          | Inherited =>
              {| lines := Js.splice (lines st) 0 0 [keyValueLine configLine];
                 lineIndices := lineIndices st;
                 sectionIndices := sectionIndices st;
                 addedContent := addedContent st |}
          | Undefined =>
              {| lines := lines st;
                 lineIndices := lineIndices st;
                 sectionIndices := sectionIndices st;
                 addedContent := Some (keyValueLine configLine +:+ String "010" "") |}
          end
      end
  end.

Definition applyEdits (st : State) (updatedConfigLines : list ConfigLine) : State :=
  foldl applyEdit st updatedConfigLines.

(** ** Serialisation *)

(** [content = lines.join('\n'); if (addedContent) content += addedContent;]:
    the empty string is falsy, as [undefined] is. *)
Definition serialize (st : State) : string :=
  let content := Js.join (lines st) in
  match addedContent st with
  | Some (String c r) => content +:+ String c r
  | _ => content
  end.

(** [updateConfigFile], from the content read to the content written. *)
Definition updateConfigFile (content : string)
    (updatedConfigLines : list ConfigLine) : string :=
  serialize (applyEdits (load content) updatedConfigLines).

(** ** The callers of [updateConfigFile] *)

(** The module [./constants] is not among the sources: the twelve values
    that the callers read from it are parameters. *)
Record Constants := {
  VALIDIUM_COMPUTE_OVERHEAD_PART : Value;
  ROLLUP_COMPUTE_OVERHEAD_PART : Value;
  VALIDIUM_PUBDATA_OVERHEAD_PART : Value;
  ROLLUP_PUBDATA_OVERHEAD_PART : Value;
  VALIDIUM_BATCH_OVERHEAD_L1_GAS : Value;
  ROLLUP_BATCH_OVERHEAD_L1_GAS : Value;
  VALIDIUM_MAX_PUBDATA_PER_BATCH : Value;
  ROLLUP_MAX_PUBDATA_PER_BATCH : Value;
  VALIDIUM_L1_BATCH_COMMIT_DATA_GENERATOR_MODE : Value;
  ROLLUP_L1_BATCH_COMMIT_DATA_GENERATOR_MODE : Value;
  VALIDIUM_L1_GAS_PER_PUBDATA_BYTE : Value;
  ROLLUP_L1_GAS_PER_PUBDATA_BYTE : Value
}.

(** [updatedConfigLines] of [updateChainConfig]. *)
Definition chainConfigLines (constants : Constants) (validiumMode : bool)
  : list ConfigLine :=
  [ {| key := "compute_overhead_part";
       value := if validiumMode then VALIDIUM_COMPUTE_OVERHEAD_PART constants
                else ROLLUP_COMPUTE_OVERHEAD_PART constants;
       section := None |};
    {| key := "pubdata_overhead_part";
       value := if validiumMode then VALIDIUM_PUBDATA_OVERHEAD_PART constants
                else ROLLUP_PUBDATA_OVERHEAD_PART constants;
       section := None |};
    {| key := "batch_overhead_l1_gas";
       value := if validiumMode then VALIDIUM_BATCH_OVERHEAD_L1_GAS constants
                else ROLLUP_BATCH_OVERHEAD_L1_GAS constants;
       section := None |};
    {| key := "max_pubdata_per_batch";
       value := if validiumMode then VALIDIUM_MAX_PUBDATA_PER_BATCH constants
                else ROLLUP_MAX_PUBDATA_PER_BATCH constants;
       section := None |};
    {| key := "l1_batch_commit_data_generator_mode";
       value := if validiumMode
                then VALIDIUM_L1_BATCH_COMMIT_DATA_GENERATOR_MODE constants
                else ROLLUP_L1_BATCH_COMMIT_DATA_GENERATOR_MODE constants;
       section := None |} ].

(** [updateChainConfig], on the content of [etc/env/base/chain.toml]. *)
Definition updateChainConfig (constants : Constants) (validiumMode : bool)
    (content : string) : string :=
  updateConfigFile content (chainConfigLines constants validiumMode).

(** [updatedConfigLines] of [updateEthSenderConfig]. *)
Definition ethSenderConfigLines (constants : Constants) (validiumMode : bool)
  : list ConfigLine :=
  [ {| key := "l1_gas_per_pubdata_byte";
       value := if validiumMode then VALIDIUM_L1_GAS_PER_PUBDATA_BYTE constants
                else ROLLUP_L1_GAS_PER_PUBDATA_BYTE constants;
       section := None |} ].

(** [updateEthSenderConfig], on the content of
    [etc/env/base/eth_sender.toml]. *)
Definition updateEthSenderConfig (constants : Constants) (validiumMode : bool)
    (content : string) : string :=
  updateConfigFile content (ethSenderConfigLines constants validiumMode).

(** [updatedConfigLines] of [updateExtNodeConfig]. *)
Definition extNodeConfigLines (validiumMode : bool) : list ConfigLine :=
  [ {| key := "l1_batch_commit_data_generator_mode";
       value := if validiumMode then VString "Validium" else VNull;
       section := if validiumMode then Some "en" else None |} ].

(** [updateExtNodeConfig], on the content of [etc/env/ext-node.toml]. *)
Definition updateExtNodeConfig (validiumMode : bool) (content : string)
  : string :=
  updateConfigFile content (extNodeConfigLines validiumMode).

(** ** The environment check *)

(** How [checkEnv] ends: it returns, a call of [utils.exec] is rejected, or
    the version error is thrown. *)
Inductive CheckResult :=
  | Passed
  | ExecRejected (command : string)
  | NodeTooOld.

(** The loop [for (const tool of tools) await utils.exec(`which ${tool}`)]:
    the first command that is rejected, if any.  [utils.exec] is not among
    the sources; [exec] gives the standard output of a command, or [None]
    when its promise is rejected. *)
Fixpoint whichTools (exec : string → option string) (tools : list string)
  : option string :=
  match tools with
  | [] => None
  | tool :: r =>
      match exec ("which " +:+ tool) with
      | Some _ => whichTools exec r
      | None => Some ("which " +:+ tool)
      end
  end.

(** [checkEnv] *)
Definition checkEnv (exec : string → option string) : CheckResult :=
  match whichTools exec ["node"; "yarn"; "docker"; "cargo"] with
  | Some command => ExecRejected command
  | None =>
      match exec "node --version" with
      | None => ExecRejected "node --version"
      | Some version =>
          if Js.geString "v14.14" version then NodeTooOld else Passed
      end
  end.

(** ** Notions used in the statements *)

Definition nl : string := String "010" "".

(** Line [j] of [ls] is a line that the scan records under [k] through the
    pattern [matcher]. *)
Definition recordedAt (matcher : string → option string) (ls : list string)
    (k : string) (j : nat) : Prop :=
  ∃ l m, ls !! j = Some l ∧ Js.startsWith "#" l = false
         ∧ matcher l = Some m ∧ Js.trim m = k.

(** Every recorded line number is an offset into the line buffer. *)
Definition validOffsets (st : State) : Prop :=
  ∀ k i, lineIndices st !! k = Some i ∨ sectionIndices st !! k = Some i →
         i < length (lines st).

(** The comment test in the words of the specification: the first
    character that is not white space is ['#']. *)
Definition firstNonSpaceIsHash (line : string) : bool :=
  Js.startsWith "#" (Js.trimStart line).

Fixpoint noChar (d : ascii) (s : string) : bool :=
  match s with
  | "" => true
  | String c r => negb (Js.isChar d c) && noChar d r
  end.

Fixpoint allChar (d : ascii) (s : string) : bool :=
  match s with
  | "" => true
  | String c r => Js.isChar d c && allChar d r
  end.

(** The lines of the language of the section-header pattern, with what
    group 1 captures: white space, ['['], a non-empty name without [']'],
    [']'], white space. *)
Definition sectionShape (line name : string) : Prop :=
  ∃ a b, line = a +:+ "[" +:+ name +:+ "]" +:+ b
         ∧ Js.allSpace a = true ∧ Js.allSpace b = true
         ∧ name ≠ "" ∧ noChar "]" name = true.

(** The lines on which the key pattern matches, with what group 1 captures
    in the leftmost match: behind leading ['='] characters, where no match
    can start, a non-empty text without ['='] that is followed by ['=']. *)
Definition keyShape (line k : string) : Prop :=
  ∃ p r, line = p +:+ k +:+ "=" +:+ r
         ∧ allChar "=" p = true ∧ k ≠ "" ∧ noChar "=" k = true.

(** The line [l] is one that the scan records under [k] through the
    pattern [matcher]. *)
Definition recordsUnder (matcher : string → option string) (k l : string)
  : bool :=
  negb (Js.startsWith "#" l)
  && match matcher l with
     | Some m => bool_decide (Js.trim m = k)
     | None => false
     end.

(** The position of the last element of [ls] that satisfies [P]. *)
Fixpoint lastMatch (P : string → bool) (ls : list string) : option nat :=
  match ls with
  | [] => None
  | l :: r =>
      match lastMatch P r with
      | Some j => Some (S j)
      | None => if P l then Some 0 else None
      end
  end.

(** The index [m] has an entry for [k], and the line it points at in [ls]
    reads [l]. *)
Definition pointsAt (m : gmap string nat) (ls : list string) (k l : string)
  : Prop :=
  ∃ j, m !! k = Some j ∧ ls !! j = Some l.

(** Values for the constants and a chain file, to run the callers on. *)
Definition exampleConstants : Constants :=
  {| VALIDIUM_COMPUTE_OVERHEAD_PART := VNumber 1;
     ROLLUP_COMPUTE_OVERHEAD_PART := VNumber 0;
     VALIDIUM_PUBDATA_OVERHEAD_PART := VNumber 0;
     ROLLUP_PUBDATA_OVERHEAD_PART := VNumber 1;
     VALIDIUM_BATCH_OVERHEAD_L1_GAS := VNumber 1000000;
     ROLLUP_BATCH_OVERHEAD_L1_GAS := VNumber 800000;
     VALIDIUM_MAX_PUBDATA_PER_BATCH := VNumber 1000000000000;
     ROLLUP_MAX_PUBDATA_PER_BATCH := VNumber 100000;
     VALIDIUM_L1_BATCH_COMMIT_DATA_GENERATOR_MODE := VString "Validium";
     ROLLUP_L1_BATCH_COMMIT_DATA_GENERATOR_MODE := VString "Rollup";
     VALIDIUM_L1_GAS_PER_PUBDATA_BYTE := VNumber 0;
     ROLLUP_L1_GAS_PER_PUBDATA_BYTE := VNumber 17 |}.

Definition exampleChainFile : string :=
  "[chain.state_keeper]" +:+ nl
  +:+ "compute_overhead_part=0.0" +:+ nl
  +:+ "pubdata_overhead_part=1.0" +:+ nl
  +:+ "# gas" +:+ nl
  +:+ "batch_overhead_l1_gas=800000" +:+ nl
  +:+ "max_pubdata_per_batch=100000" +:+ nl
  +:+ "l1_batch_commit_data_generator_mode=" +:+ String "034" "Rollup"
  +:+ String "034" nl.

(** An [exec] under which every tool is found and [node --version] prints
    [version]. *)
Definition execWithNode (version : string) (command : string)
  : option string :=
  if bool_decide (command = "node --version") then Some version
  else Some "/usr/bin/tool".

(** ** Strings and arrays *)

Section Strings.

Lemma split_cons (s : string) : ∃ h t, Js.split s = h :: t.
Proof.
  destruct s as [|c r]; simpl; [by eauto|].
  destruct (Js.isChar _ c); [by eauto|].
  destruct (Js.split r); eauto.
Qed.

Lemma join_cons_cons (x y : string) (r : list string) :
  Js.join (x :: y :: r) = x +:+ String "010" (Js.join (y :: r)).
Proof. reflexivity. Qed.

Lemma join_split (s : string) : Js.join (Js.split s) = s.
Proof.
  induction s as [|c r IH]; [reflexivity|].
  cbn [Js.split]. destruct (split_cons r) as (h & t & Hr).
  rewrite Hr in IH |- *. unfold Js.isChar.
  case_bool_decide as Hc.
  - subst c. rewrite join_cons_cons, IH. reflexivity.
  - rewrite <- IH. by destruct t.
Qed.

Lemma splice_replace {A} (a : list A) (i : nat) (x : A) :
  i < length a → Js.splice a i 1 [x] = <[i := x]> a.
Proof.
  intros Hi. unfold Js.splice.
  revert i Hi. induction a as [|y a IH]; intros [|i] Hi; simpl in *; try lia.
  - by rewrite drop_0.
  - f_equal. apply IH. lia.
Qed.



Lemma splice_insert_lookup_gt {A} (a : list A) (p j : nat) (x : A) :
  p ≤ j → Js.splice a p 0 [x] !! S j = a !! j.
Proof.
  intros Hj. unfold Js.splice.
  destruct (decide (p ≤ length a)) as [Hp|Hp].
  - rewrite lookup_app_r by (rewrite length_take; lia).
    rewrite length_take, Nat.min_l by lia.
    replace (S j - p) with (S (j - p)) by lia. simpl.
    rewrite lookup_drop. f_equal. lia.
  - rewrite take_ge, drop_ge by lia.
    rewrite (lookup_ge_None_2 a j) by lia.
    apply lookup_ge_None_2. rewrite length_app. simpl. lia.
Qed.

End Strings.

(** ** The patterns: what the matchers accept *)

Section Patterns.

Local Arguments String.append !_ _ / : simpl nomatch.

Lemma cut_Some (d : ascii) (s a b : string) :
  cut d s = Some (a, b) → s = a +:+ String d b ∧ noChar d a = true.
Proof.
  revert a. induction s as [|c r IH]; intros a Hs; [done|].
  simpl in Hs. unfold Js.isChar in *. case_bool_decide as Hc.
  - inversion Hs; subst. done.
  - destruct (cut d r) as [[a' b']|] eqn:Hr; [|done].
    inversion Hs; subst a b'. destruct (IH a' eq_refl) as [-> Hn].
    simpl. unfold Js.isChar. rewrite bool_decide_eq_false_2 by done. done.
Qed.

Lemma cut_app (d : ascii) (a b : string) :
  noChar d a = true → cut d (a +:+ String d b) = Some (a, b).
Proof.
  induction a as [|c a IH]; simpl.
  - intros _. unfold Js.isChar. by rewrite bool_decide_eq_true_2.
  - intros [Hc Ha]%andb_prop. apply negb_true_iff in Hc.
    rewrite Hc, IH by done. done.
Qed.

Lemma trimStart_prefix (s : string) :
  ∃ a, s = a +:+ Js.trimStart s ∧ Js.allSpace a = true.
Proof.
  induction s as [|c r (a & Hr & Ha)]; [by exists ""|].
  simpl. destruct (Js.isSpace c) eqn:Hc.
  - exists (String c a). simpl. rewrite Hc, Ha. by rewrite <- Hr.
  - by exists "".
Qed.

Lemma trimStart_app (a : string) (c : ascii) (r : string) :
  Js.allSpace a = true → Js.isSpace c = false →
  Js.trimStart (a +:+ String c r) = String c r.
Proof.
  intros Ha Hc. induction a as [|x a IH]; simpl.
  - by rewrite Hc.
  - simpl in Ha. apply andb_prop in Ha as [-> Ha]. by apply IH.
Qed.

(** [sectionMatch] accepts the language of the header pattern and returns
    its capture. *)
Lemma sectionMatch_shape (line name : string) :
  sectionMatch line = Some name ↔ sectionShape line name.
Proof.
  unfold sectionMatch, sectionShape. split.
  - destruct (trimStart_prefix line) as (a & Hl & Ha).
    destruct (Js.trimStart line) as [|c r]; [done|].
    destruct (decide (c = "["%char)) as [->|Hc].
    + destruct (cut "]" r) as [[[|x n] rest]|] eqn:Hr; try done.
      destruct (Js.allSpace rest) eqn:Hrest; [|done].
      intros [= <-]. apply cut_Some in Hr as [-> Hn].
      exists a, rest. by rewrite Hl at 1.
    + intros H. exfalso. revert H.
      destruct c as [[] [] [] [] [] [] [] []]; done.
  - intros (a & b & -> & Ha & Hb & Hne & Hn).
    change (a +:+ "[" +:+ name +:+ "]" +:+ b)
      with (a +:+ String "[" (name +:+ String "]" b)).
    rewrite trimStart_app by done. rewrite cut_app by done.
    destruct name; [done|]. by rewrite Hb.
Qed.

(** [keyMatch] finds the leftmost match of the key pattern and returns its
    capture. *)
Lemma keyMatch_shape (line k : string) :
  keyMatch line = Some k ↔ keyShape line k.
Proof.
  unfold keyShape. split.
  - induction line as [|c r IH]; [done|]. cbn [keyMatch].
    destruct (Js.isChar "=" c) eqn:Hc.
    + intros (p & t & -> & Hp & Hk)%IH.
      exists (String c p), t. simpl. by rewrite Hc, Hp.
    + destruct (cut "=" (String c r)) as [[a b]|] eqn:Hcut; [|done].
      intros [= <-]. apply cut_Some in Hcut as [Heq Hn].
      exists "", b. simpl. split; [done|]. split; [done|]. split; [|done].
      intros ->. simpl in Heq. inversion Heq; subst c. done.
  - intros (p & t & -> & Hp & Hne & Hn).
    induction p as [|c p IH]; simpl.
    + destruct k as [|c k]; [done|]. simpl in Hn.
      apply andb_prop in Hn as [Hc Hn]. apply negb_true_iff in Hc.
      change (keyMatch (String c (k +:+ String "=" t)) = Some (String c k)).
      cbn [keyMatch]. rewrite Hc.
      change (String c (k +:+ String "=" t))
        with (String c k +:+ String "=" t).
      rewrite cut_app; [done|]. simpl. by rewrite Hc.
    + simpl in Hp. apply andb_prop in Hp as [-> Hp]. by apply IH.
Qed.

End Patterns.

(** ** Reading and writing a property *)

Section Objects.

Implicit Types (m : gmap string nat) (k : string).

Lemma setIndex_lookup_Some k (i : nat) m k' (j : nat) :
  setIndex k i m !! k' = Some j → (k = k' ∧ j = i) ∨ m !! k' = Some j.
Proof.
  unfold setIndex. case_bool_decide; [by right|].
  destruct (decide (k = k')) as [->|Hne].
  - rewrite lookup_insert_eq. intros [= <-]. by left.
  - rewrite lookup_insert_ne by done. by right.
Qed.

Lemma setIndex_lookup k (i : nat) m k' :
  setIndex k i m !! k'
  = if bool_decide (k = k' ∧ k ≠ "__proto__") then Some i else m !! k'.
Proof.
  unfold setIndex. case_bool_decide as Hp.
  - rewrite bool_decide_eq_false_2; [done|]. by intros [_ ?].
  - destruct (decide (k = k')) as [->|Hne].
    + rewrite lookup_insert_eq. by rewrite bool_decide_eq_true_2.
    + rewrite lookup_insert_ne by done.
      rewrite bool_decide_eq_false_2; [done|]. by intros [? _].
Qed.

Lemma setIndex_insert k (i : nat) m :
  k ≠ "__proto__" → setIndex k i m = <[k := i]> m.
Proof. intros Hk. unfold setIndex. by rewrite bool_decide_eq_false_2. Qed.

Lemma getIndex_Some m k (i : nat) : m !! k = Some i → getIndex m k = Index i.
Proof. unfold getIndex. by intros ->. Qed.

Lemma getIndex_Index m k (i : nat) : getIndex m k = Index i → m !! k = Some i.
Proof.
  unfold getIndex. destruct (m !! k); [by intros [= ->]|].
  by case_bool_decide.
Qed.

Lemma getIndex_Undefined m k :
  getIndex m k = Undefined ↔ m !! k = None ∧ k ∉ prototypeNames.
Proof.
  unfold getIndex. destruct (m !! k).
  - split; [done|]. by intros [? _].
  - case_bool_decide; split; try done. by intros [_ ?].
Qed.

(** For a name that is not inherited, reading gives what was stored. *)
Lemma getIndex_own m k :
  k ∉ prototypeNames →
  getIndex m k = match m !! k with Some i => Index i | None => Undefined end.
Proof.
  intros Hk. unfold getIndex. destruct (m !! k); [done|].
  by rewrite bool_decide_eq_false_2.
Qed.

End Objects.

(** ** Index maintenance: what a shift does to each entry *)

Section Shift.

Variable f : nat → nat.

Lemma store_all_other (l : list (string * nat)) (m : gmap string nat) (k : string) :
  k ∉ l.*1 → foldl (storeEntry f) m l !! k = m !! k.
Proof.
  revert m. induction l as [|[k' v'] l IH]; intros m Hk; [done|].
  apply not_elem_of_cons in Hk as [Hne Hk]. simpl in *.
  rewrite IH by done. unfold storeEntry. simpl. by rewrite lookup_insert_ne.
Qed.

Lemma store_all_member (l : list (string * nat)) (m : gmap string nat)
    (k : string) (v : nat) :
  NoDup l.*1 → (k, v) ∈ l → foldl (storeEntry f) m l !! k = Some (f v).
Proof.
  revert m. induction l as [|[k' v'] l IH]; intros m Hnd Hin.
  - by apply elem_of_nil in Hin.
  - simpl in Hnd. apply NoDup_cons in Hnd as [Hfresh Hnd].
    apply elem_of_cons in Hin as [Heq|Hin]; simpl.
    + inversion Heq; subst k' v'. rewrite store_all_other by done.
      unfold storeEntry. simpl. by rewrite lookup_insert_eq.
    + by apply IH.
Qed.

(** Every entry above [pos] is stored back through [f]; the others keep
    their line number and no entry appears or disappears. *)
Lemma shiftEntries_lookup (pos : nat) (m : gmap string nat) (k : string) :
  shiftEntries f pos m !! k
  = (λ index, if decide (pos < index) then f index else index) <$> m !! k.
Proof.
  unfold shiftEntries.
  set (sel := filter (λ e : string * nat, pos < e.2) (map_to_list m)).
  assert (NoDup sel.*1) as Hnd.
  { apply (sublist_NoDup _ (map_to_list m).*1).
    - apply NoDup_fst_map_to_list.
    - apply fmap_sublist, sublist_filter. }
  destruct (m !! k) as [v|] eqn:Hk; simpl.
  - case_decide as Hv.
    + apply store_all_member; [done|].
      apply list_elem_of_filter. split; [done|]. by apply elem_of_map_to_list.
    + rewrite store_all_other; [done|].
      intros ([k' v'] & -> & Hin)%list_elem_of_fmap.
      apply list_elem_of_filter in Hin as [Hgt Hin].
      apply elem_of_map_to_list in Hin. simpl in *. congruence.
  - rewrite store_all_other; [done|].
    intros ([k' v'] & -> & Hin)%list_elem_of_fmap.
    apply list_elem_of_filter in Hin as [_ Hin].
    apply elem_of_map_to_list in Hin. simpl in *. congruence.
Qed.

End Shift.

(** ** The scan: where an index entry comes from *)

Section Scan.

Lemma recordedAt_cons matcher l ls k i j :
  S i ≤ j → recordedAt matcher ls k (j - S i) →
  i ≤ j ∧ recordedAt matcher (l :: ls) k (j - i).
Proof.
  intros Hij (l' & m & Hl & Hc & Hm & Hk). split; [lia|].
  exists l', m. replace (j - i) with (S (j - S i)) by lia. done.
Qed.

Lemma scanFrom_key_origin (i : nat) (ls : list string)
    (ix : gmap string nat * gmap string nat) (k : string) (j : nat) :
  (scanFrom i ls ix).1 !! k = Some j →
  ix.1 !! k = Some j ∨ (i ≤ j ∧ recordedAt keyMatch ls k (j - i)).
Proof.
  revert i ix. induction ls as [|l ls IH]; intros i ix Hj; [by left|].
  simpl in Hj. apply IH in Hj as [Hj|[Hij Hr]].
  - unfold scanLine in Hj.
    destruct (Js.startsWith "#" l) eqn:Hc; [by left|]. simpl in Hj.
    destruct (keyMatch l) as [m|] eqn:Hm; [|by left].
    apply setIndex_lookup_Some in Hj as [[<- ->]|Hj]; [|by left].
    right. split; [done|]. exists l, m. by rewrite Nat.sub_diag.
  - right. by apply recordedAt_cons.
Qed.

Lemma scanFrom_section_origin (i : nat) (ls : list string)
    (ix : gmap string nat * gmap string nat) (k : string) (j : nat) :
  (scanFrom i ls ix).2 !! k = Some j →
  ix.2 !! k = Some j ∨ (i ≤ j ∧ recordedAt sectionMatch ls k (j - i)).
Proof.
  revert i ix. induction ls as [|l ls IH]; intros i ix Hj; [by left|].
  simpl in Hj. apply IH in Hj as [Hj|[Hij Hr]].
  - unfold scanLine in Hj.
    destruct (Js.startsWith "#" l) eqn:Hc; [by left|]. simpl in Hj.
    destruct (sectionMatch l) as [m|] eqn:Hm; [|by left].
    apply setIndex_lookup_Some in Hj as [[<- ->]|Hj]; [|by left].
    right. split; [done|]. exists l, m. by rewrite Nat.sub_diag.
  - right. by apply recordedAt_cons.
Qed.

(** After loading, every key entry points at a line of the buffer that is
    no comment and matches the key pattern under that key. *)
Lemma load_key_recorded (content k : string) (j : nat) :
  lineIndices (load content) !! k = Some j →
  recordedAt keyMatch (lines (load content)) k j.
Proof.
  intros Hj. apply scanFrom_key_origin in Hj as [Hj|[_ Hr]].
  - simpl in Hj. by rewrite lookup_empty in Hj.
  - by rewrite Nat.sub_0_r in Hr.
Qed.

(** And every section entry points at a header line of that name. *)
Lemma load_section_recorded (content k : string) (j : nat) :
  sectionIndices (load content) !! k = Some j →
  recordedAt sectionMatch (lines (load content)) k j.
Proof.
  intros Hj. apply scanFrom_section_origin in Hj as [Hj|[_ Hr]].
  - simpl in Hj. by rewrite lookup_empty in Hj.
  - by rewrite Nat.sub_0_r in Hr.
Qed.

Lemma recordedAt_lt matcher ls k j :
  recordedAt matcher ls k j → j < length ls.
Proof. intros (l & m & Hl & _). by eapply lookup_lt_Some. Qed.

End Scan.

(** ** The four actions of one edit *)

Section Actions.

Implicit Types (st : State) (e : ConfigLine).

Lemma applyEdit_replace st e (i : nat) :
  lineIndices st !! key e = Some i → value e ≠ VNull →
  applyEdit st e =
    {| lines := Js.splice (lines st) i 1 [keyValueLine e];
       lineIndices := lineIndices st;
       sectionIndices := sectionIndices st;
       addedContent := addedContent st |}.
Proof.
  intros Hk%getIndex_Some Hv. unfold applyEdit. rewrite Hk.
  by destruct (value e).
Qed.

Lemma applyEdit_delete st e (d : nat) :
  lineIndices st !! key e = Some d → value e = VNull →
  applyEdit st e =
    {| lines := Js.splice (lines st) d 1 [];
       lineIndices := shiftEntries (λ index, index - 1) d (lineIndices st);
       sectionIndices := shiftEntries (λ index, index - 1) d (sectionIndices st);
       addedContent := addedContent st |}.
Proof. intros Hk%getIndex_Some Hv. unfold applyEdit. by rewrite Hk, Hv. Qed.

Lemma applyEdit_insert st e (s : nat) :
  getIndex (lineIndices st) (key e) = Undefined → value e ≠ VNull →
  sectionIndices st !! sectionKey (section e) = Some s →
  applyEdit st e =
    {| lines := Js.splice (lines st) (s + 1) 0 [keyValueLine e];
       lineIndices := shiftEntries (λ index, index + 1) s (lineIndices st);
       sectionIndices := shiftEntries (λ index, index + 1) s (sectionIndices st);
       addedContent := addedContent st |}.
Proof.
  intros Hk Hv Hs%getIndex_Some. unfold applyEdit. rewrite Hk, Hs.
  by destruct (value e).
Qed.

(** The fall-back when the looked-up section property is undefined. *)
Lemma applyEdit_append st e :
  getIndex (lineIndices st) (key e) = Undefined → value e ≠ VNull →
  getIndex (sectionIndices st) (sectionKey (section e)) = Undefined →
  applyEdit st e =
    {| lines := lines st;
       lineIndices := lineIndices st;
       sectionIndices := sectionIndices st;
       addedContent := Some (keyValueLine e +:+ String "010" "") |}.
Proof.
  intros Hk Hv Hs. unfold applyEdit. rewrite Hk, Hs. by destruct (value e).
Qed.

Lemma applyEdit_noop st e :
  getIndex (lineIndices st) (key e) = Undefined → value e = VNull →
  applyEdit st e = st.
Proof. intros Hk Hv. unfold applyEdit. by rewrite Hk, Hv. Qed.

(** The three actions on an inherited property: line 0 is written,
    removed, or gets the new line in front of it, and no entry moves. *)
Lemma applyEdit_inherited_replace st e :
  getIndex (lineIndices st) (key e) = Inherited → value e ≠ VNull →
  applyEdit st e =
    {| lines := Js.splice (lines st) 0 1 [keyValueLine e];
       lineIndices := lineIndices st;
       sectionIndices := sectionIndices st;
       addedContent := addedContent st |}.
Proof. intros Hk Hv. unfold applyEdit. rewrite Hk. by destruct (value e). Qed.

Lemma applyEdit_inherited_delete st e :
  getIndex (lineIndices st) (key e) = Inherited → value e = VNull →
  applyEdit st e =
    {| lines := Js.splice (lines st) 0 1 [];
       lineIndices := lineIndices st;
       sectionIndices := sectionIndices st;
       addedContent := addedContent st |}.
Proof. intros Hk Hv. unfold applyEdit. by rewrite Hk, Hv. Qed.

Lemma applyEdit_inherited_insert st e :
  getIndex (lineIndices st) (key e) = Undefined → value e ≠ VNull →
  getIndex (sectionIndices st) (sectionKey (section e)) = Inherited →
  applyEdit st e =
    {| lines := Js.splice (lines st) 0 0 [keyValueLine e];
       lineIndices := lineIndices st;
       sectionIndices := sectionIndices st;
       addedContent := addedContent st |}.
Proof.
  intros Hk Hv Hs. unfold applyEdit. rewrite Hk, Hs. by destruct (value e).
Qed.

(** What a deletion at [d] does hold for the entries: those above [d] move
    up by one line, the others, the deleted key's own among them, stay. *)
Lemma applyEdit_delete_entries st e (d : nat) (k : string) :
  lineIndices st !! key e = Some d → value e = VNull →
  lineIndices (applyEdit st e) !! k
    = (λ index, if decide (d < index) then index - 1 else index)
        <$> lineIndices st !! k
  ∧ sectionIndices (applyEdit st e) !! k
    = (λ index, if decide (d < index) then index - 1 else index)
        <$> sectionIndices st !! k.
Proof.
  intros Hk Hv. rewrite (applyEdit_delete st e d) by done. simpl.
  by rewrite !shiftEntries_lookup.
Qed.

(** A single unresolved edit on a loaded file puts its line behind the
    content read. *)
Lemma append_single (content : string) e :
  getIndex (lineIndices (load content)) (key e) = Undefined →
  value e ≠ VNull →
  getIndex (sectionIndices (load content)) (sectionKey (section e)) = Undefined →
  updateConfigFile content [e]
  = content +:+ (keyValueLine e +:+ String "010" "").
Proof.
  intros Hk Hv Hs. unfold updateConfigFile, applyEdits. simpl.
  rewrite applyEdit_append by done. unfold serialize. simpl.
  rewrite join_split. unfold keyValueLine.
  destruct (key e); reflexivity.
Qed.

(** *** Offsets into the line buffer *)

Lemma load_validOffsets (content : string) : validOffsets (load content).
Proof.
  intros k i [Hk|Hk]; eapply recordedAt_lt.
  - by apply load_key_recorded.
  - by apply load_section_recorded.
Qed.

Lemma splice_insert_length {A} (a : list A) (p : nat) (x : A) :
  length (Js.splice a p 0 [x]) = S (length a).
Proof.
  unfold Js.splice. rewrite Nat.add_0_r, length_app. simpl.
  by rewrite Nat.add_succ_r, <- length_app, take_drop.
Qed.

Lemma splice_head_length {A} (a : list A) (x : A) :
  length a ≤ length (Js.splice a 0 1 [x]).
Proof. unfold Js.splice. destruct a; simpl; [lia|]. rewrite drop_0. lia. Qed.

(** Every action but the deletion keeps the recorded line numbers inside
    the buffer. *)
Lemma applyEdit_validOffsets st e :
  validOffsets st →
  getIndex (lineIndices st) (key e) = Undefined ∨ value e ≠ VNull →
  validOffsets (applyEdit st e).
Proof.
  intros Hst Hcase.
  assert (value e = VNull ∨ value e ≠ VNull) as [Hv|Hv]
    by (destruct (value e); auto).
  { destruct Hcase as [Hk|]; [|done]. by rewrite applyEdit_noop. }
  destruct (getIndex (lineIndices st) (key e)) as [|i|] eqn:Hk.
  - destruct (getIndex (sectionIndices st) (sectionKey (section e)))
      as [|s|] eqn:Hs.
    + rewrite applyEdit_append by done. intros k j Hj. by apply (Hst k).
    + apply getIndex_Index in Hs.
      rewrite (applyEdit_insert st e s) by done. intros k j Hj. simpl in *.
      rewrite splice_insert_length. rewrite !shiftEntries_lookup in Hj.
      destruct Hj as [Hj|Hj].
      * destruct (lineIndices st !! k) as [j'|] eqn:Hj'; [|done].
        assert (j' < length (lines st)) by (apply (Hst k); by left).
        simpl in Hj. inversion Hj. case_decide; lia.
      * destruct (sectionIndices st !! k) as [j'|] eqn:Hj'; [|done].
        assert (j' < length (lines st)) by (apply (Hst k); by right).
        simpl in Hj. inversion Hj. case_decide; lia.
    + rewrite applyEdit_inherited_insert by done. intros k j Hj.
      cbn [lines lineIndices sectionIndices] in *.
      rewrite splice_insert_length. specialize (Hst k j Hj). lia.
  - apply getIndex_Index in Hk.
    rewrite (applyEdit_replace st e i) by done. intros k j Hj. simpl in *.
    rewrite splice_replace by (apply (Hst (key e)); by left).
    rewrite length_insert. by apply (Hst k).
  - rewrite applyEdit_inherited_replace by done. intros k j Hj.
    cbn [lines lineIndices sectionIndices] in *.
    pose proof (splice_head_length (lines st) (keyValueLine e)).
    specialize (Hst k j Hj). lia.
Qed.

(** Writing a loaded state back gives the content read. *)
Lemma empty_state_round_trip (content : string) :
  serialize (load content) = content.
Proof. unfold serialize. simpl. apply join_split. Qed.

End Actions.

(** ** Properties of the patcher *)

(** C7. Round trip: with an empty edit batch the content written is the
    content read, character for character. *)
Theorem empty_batch_round_trip (content : string) :
  updateConfigFile content [] = content.
Proof.
  unfold updateConfigFile, applyEdits, serialize. simpl. apply join_split.
Qed.

(** C9, as the code has it: the appended text is put directly behind the
    last character of the content read.  On the file whose content is the
    one line [foo=1] the edit [{key: baz, value: 3, section: null}] gives
    the single line [foo=1baz=3], where the claim, and the code's comment
    on adding the line at the end of the file, want [baz=3] on a new last
    line. *)
Theorem append_scenario_glues_line :
  updateConfigFile "foo=1"
    [ {| key := "baz"; value := VNumber 3; section := None |} ]
  = "foo=1baz=3" +:+ nl
  ∧ Js.split (updateConfigFile "foo=1"
                [ {| key := "baz"; value := VNumber 3; section := None |} ])
    = ["foo=1baz=3"; ""].
Proof. split; vm_compute; reflexivity. Qed.

(** The same edit on content that ends in a line break. *)
Example append_scenario_terminated :
  updateConfigFile ("foo=1" +:+ nl)
    [ {| key := "baz"; value := VNumber 3; section := None |} ]
  = "foo=1" +:+ nl +:+ "baz=3" +:+ nl.
Proof. vm_compute. reflexivity. Qed.

(** C1, as the code has it: [addedContent] is assigned, not extended, so of
    two edits of one batch that both fall to the append action only the
    line of the later one is written; the claim wants both [a=1] and
    [b=2] at the end of the output. *)
Theorem append_twice_keeps_last_only :
  updateConfigFile ("foo=1" +:+ nl)
    [ {| key := "a"; value := VNumber 1; section := None |};
      {| key := "b"; value := VNumber 2; section := None |} ]
  = "foo=1" +:+ nl +:+ "b=2" +:+ nl.
Proof. vm_compute. reflexivity. Qed.

(** In general: two append actions in a row leave the second line alone in
    [addedContent], whatever the first one was. *)
Lemma append_overwrites (st : State) (e1 e2 : ConfigLine) :
  getIndex (lineIndices st) (key e1) = Undefined → value e1 ≠ VNull →
  getIndex (sectionIndices st) (sectionKey (section e1)) = Undefined →
  getIndex (lineIndices st) (key e2) = Undefined → value e2 ≠ VNull →
  getIndex (sectionIndices st) (sectionKey (section e2)) = Undefined →
  addedContent (applyEdits st [e1; e2]) = Some (keyValueLine e2 +:+ nl).
Proof.
  intros Hk1 Hv1 Hs1 Hk2 Hv2 Hs2. unfold applyEdits. simpl.
  rewrite (applyEdit_append st e1) by done.
  by rewrite applyEdit_append.
Qed.

(** C2, as the code has it: after the deletion of the existing key [a] its
    entry is still in [lineIndices], at the old line number, which now is
    the line of [b]; a later edit of the same batch for [a] finds that
    entry and overwrites [b=2].  On a file whose only line is deleted the
    entry left behind is no offset into the emptied buffer, while every
    other action keeps the offsets valid ([applyEdit_validOffsets]). *)
Theorem delete_leaves_stale_entry :
  lines (applyEdit (load ("a=1" +:+ nl +:+ "b=2" +:+ nl))
           {| key := "a"; value := VNull; section := None |})
    = ["b=2"; ""]
  ∧ lineIndices (applyEdit (load ("a=1" +:+ nl +:+ "b=2" +:+ nl))
                   {| key := "a"; value := VNull; section := None |}) !! "a"
    = Some 0
  ∧ updateConfigFile ("a=1" +:+ nl +:+ "b=2" +:+ nl)
      [ {| key := "a"; value := VNull; section := None |};
        {| key := "a"; value := VNumber 9; section := None |} ]
    = "a=9" +:+ nl
  ∧ lines (applyEdit (load "a=1")
             {| key := "a"; value := VNull; section := None |}) = []
  ∧ lineIndices (applyEdit (load "a=1")
                   {| key := "a"; value := VNull; section := None |}) !! "a"
    = Some 0
  ∧ ¬ validOffsets (applyEdit (load "a=1")
                      {| key := "a"; value := VNull; section := None |}).
Proof.
  do 5 (split; [vm_compute; reflexivity|]).
  intros Hvalid. specialize (Hvalid "a" 0 (or_introl eq_refl)).
  vm_compute in Hvalid. lia.
Qed.

(** C8, as the code has it: a [null] section is looked up under the
    property name [null], so on a file with a header [[null]] the edit is
    not appended at the end but inserted behind that header. *)
Theorem null_section_finds_header_null :
  updateConfigFile ("[null]" +:+ nl +:+ "foo=1" +:+ nl)
    [ {| key := "baz"; value := VNumber 3; section := None |} ]
  = "[null]" +:+ nl +:+ "baz=3" +:+ nl +:+ "foo=1" +:+ nl.
Proof. vm_compute. reflexivity. Qed.


(** *** Comment lines *)

(** C3, as the claim states it, fails: a line with white space before its
    ['#'] is scanned like any other line, and here it is recorded as the
    key [#a]. *)
Lemma indented_hash_line_is_indexed :
  lines (load " #a=1") !! 0 = Some " #a=1"
  ∧ firstNonSpaceIsHash " #a=1" = true
  ∧ lineIndices (load " #a=1") !! "#a" = Some 0.
Proof. vm_compute. repeat split; reflexivity. Qed.

(** C3, amended: a line whose first character is ['#'] is skipped by the
    scan: the iteration for it changes neither index, and after loading no
    key and no section is recorded at its line number, whatever the line
    holds behind the ['#']. *)
Theorem hash_line_never_indexed (content : string) (i : nat) (line : string) :
  lines (load content) !! i = Some line →
  Js.startsWith "#" line = true →
  (∀ ix, scanLine i line ix = ix)
  ∧ (∀ k, lineIndices (load content) !! k ≠ Some i)
  ∧ (∀ k, sectionIndices (load content) !! k ≠ Some i).
Proof.
  intros Hl Hc. split; [|split].
  - intros ix. unfold scanLine. by rewrite Hc.
  - intros k Hk. apply load_key_recorded in Hk as (l & m & Hl' & Hc' & _).
    congruence.
  - intros k Hk. apply load_section_recorded in Hk as (l & m & Hl' & Hc' & _).
    congruence.
Qed.

Lemma hash_line_never_indexed_witness :
  lines (load ("#a=1" +:+ nl +:+ "#[s]")) !! 1 = Some "#[s]"
  ∧ Js.startsWith "#" "#[s]" = true
  ∧ (∀ k, sectionIndices (load ("#a=1" +:+ nl +:+ "#[s]")) !! k ≠ Some 1).
Proof.
  split; [reflexivity|]. split; [reflexivity|].
  apply (hash_line_never_indexed ("#a=1" +:+ nl +:+ "#[s]") 1 "#[s]");
    reflexivity.
Defined.

(** *** Section headers *)

Lemma isSpace_not_eq (c : ascii) : Js.isSpace c = true → Js.isChar "=" c = false.
Proof.
  intros Hc. unfold Js.isChar. case_bool_decide as H; [|done].
  subst c. discriminate Hc.
Qed.

(** On a line that does not start with ['='] group 1 of the key pattern is
    the text before the first ['=']. *)
Lemma keyMatch_cut (c : ascii) (r : string) :
  Js.isChar "=" c = false →
  keyMatch (String c r) = fst <$> cut "=" (String c r).
Proof.
  intros Hc. cbn [keyMatch]. rewrite Hc.
  by destruct (cut "=" (String c r)) as [[a b]|].
Qed.

Lemma keyMatch_header (line name : string) :
  sectionMatch line = Some name → keyMatch line = fst <$> cut "=" line.
Proof.
  unfold sectionMatch. destruct line as [|c r]; [done|]. intros Hm.
  apply keyMatch_cut. cbn [Js.trimStart] in Hm.
  destruct (Js.isSpace c) eqn:Hc; [by apply isSpace_not_eq|].
  unfold Js.isChar. case_bool_decide as H; [|done]. by subst c.
Qed.

(** C4, as the claim states it, fails: the two patterns are tried one after
    the other on every line that is no comment, and the header [[a=b]] is
    recorded as the section [a=b] and as the key [[a] as well. *)
Lemma header_with_equals_is_also_a_key :
  Js.startsWith "#" "[a=b]" = false
  ∧ sectionMatch "[a=b]" = Some "a=b"
  ∧ sectionIndices (load "[a=b]") !! "a=b" = Some 0
  ∧ lineIndices (load "[a=b]") !! "[a" = Some 0.
Proof. vm_compute. repeat split; reflexivity. Qed.

(** The text before the first ['='] of a header line starts, behind white
    space, with the ['['] of the header. *)
Lemma header_key_bracket (line a b r0 : string) :
  Js.trimStart line = String "[" r0 → cut "=" line = Some (a, b) →
  ∃ r, Js.trim a = String "[" r.
Proof.
  revert a. induction line as [|c r IH]; intros a Hl Hcut; [done|].
  cbn [cut] in Hcut. unfold Js.isChar in Hcut.
  case_bool_decide as Hc.
  - subst c. by inversion Hl.
  - destruct (cut "=" r) as [[a' b']|] eqn:Hr; [|done].
    inversion Hcut; subst a b'. cbn [Js.trimStart] in Hl.
    unfold Js.trim. cbn [Js.trimStart].
    destruct (Js.isSpace c) eqn:Hs.
    + by apply IH.
    + inversion Hl; subst c r0. by eexists.
Qed.

(** C4, amended: a line that is no comment and matches the section-header
    pattern, with a name other than [__proto__], is recorded in
    [sectionIndices] under its trimmed name; it is recorded in
    [lineIndices] too exactly when it holds an ['='], then under the
    trimmed text before the first ['=']; a header line without ['='] is
    recorded in [sectionIndices] only, and after loading no key points at
    it. *)
Theorem header_line_scan (i : nat) (line name : string)
    (ix : gmap string nat * gmap string nat) :
  Js.startsWith "#" line = false →
  sectionMatch line = Some name →
  Js.trim name ≠ "__proto__" →
  (scanLine i line ix).2 = <[Js.trim name := i]> ix.2
  ∧ (cut "=" line = None → (scanLine i line ix).1 = ix.1)
  ∧ (∀ a b, cut "=" line = Some (a, b) →
       (scanLine i line ix).1 = <[Js.trim a := i]> ix.1)
  ∧ (∀ content k, lines (load content) !! i = Some line →
       cut "=" line = None → lineIndices (load content) !! k ≠ Some i).
Proof.
  intros Hc Hm Hname. pose proof (keyMatch_header _ _ Hm) as Hk.
  unfold scanLine. rewrite Hc, Hm, Hk. cbn [fst snd].
  split; [by apply setIndex_insert|]. split; [by intros ->|]. split.
  - intros a b Hcut. rewrite Hcut. cbn [fmap option_fmap option_map fst].
    apply setIndex_insert.
    assert (∃ r0, Js.trimStart line = String "[" r0) as [r0 Hl].
    { unfold sectionMatch in Hm.
      destruct (Js.trimStart line) as [|c r0]; [done|].
      destruct c as [[] [] [] [] [] [] [] []]; try done. by eexists. }
    destruct (header_key_bracket line a b r0 Hl Hcut) as [r ->]. done.
  - intros content k Hl Hcut Hi.
    apply load_key_recorded in Hi as (l & m & Hl' & _ & Hm' & _).
    rewrite Hl in Hl'. inversion Hl'; subst l.
    by rewrite Hk, Hcut in Hm'.
Qed.

Lemma header_line_scan_witness :
  Js.startsWith "#" " [en] " = false
  ∧ sectionMatch " [en] " = Some "en"
  ∧ (scanLine 4 " [en] " (∅, ∅)).2 = <[Js.trim "en" := 4]> ∅
  ∧ (scanLine 4 " [en] " (∅, ∅)).1 = ∅.
Proof.
  split; [reflexivity|]. split; [reflexivity|].
  assert (Js.trim "en" ≠ "__proto__") as Hname by discriminate.
  destruct (header_line_scan 4 " [en] " "en" (∅, ∅) eq_refl eq_refl Hname)
    as (Hs & Hk & _).
  split; [exact Hs|]. apply Hk. reflexivity.
Defined.

(** *** Replacing the line of an existing key *)

(** C10. A replacement rewrites the line at the key's recorded line number
    as exactly the edit's key, one ['='] and the value converted to a
    string; nothing of the line that stood there is kept. *)
Theorem replace_writes_key_value (st : State) (e : ConfigLine) (i : nat) :
  lineIndices st !! key e = Some i →
  value e ≠ VNull →
  printsInDecimal (value e) →
  i < length (lines st) →
  lines (applyEdit st e) !! i
    = Some (key e +:+ "=" +:+ valueToString (value e))
  ∧ lines (applyEdit st e) = <[i := keyValueLine e]> (lines st).
Proof.
  intros Hk Hv _ Hi. rewrite (applyEdit_replace st e i) by done. simpl.
  rewrite splice_replace by done. split; [|done].
  by apply list_lookup_insert_eq.
Qed.

Lemma replace_writes_key_value_witness :
  lineIndices (load ("  foo  =  1   # one" +:+ nl)) !! "foo" = Some 0
  ∧ lines (applyEdit (load ("  foo  =  1   # one" +:+ nl))
             {| key := "foo"; value := VNumber 2; section := None |}) !! 0
    = Some "foo=2".
Proof.
  split; [reflexivity|].
  apply (replace_writes_key_value (load ("  foo  =  1   # one" +:+ nl))
           {| key := "foo"; value := VNumber 2; section := None |} 0).
  - reflexivity.
  - discriminate.
  - simpl. lia.
  - vm_compute. lia.
Defined.

(** C6, as the claim states it, fails: the line of the key is rewritten
    whatever it reads, and when it already reads key, ['='], value, the
    text of no line changes. *)
Lemma replace_with_same_text_changes_no_line :
  lineIndices (load ("a=1" +:+ nl +:+ "b=2")) !! "a" = Some 0
  ∧ lines (applyEdit (load ("a=1" +:+ nl +:+ "b=2"))
             {| key := "a"; value := VNumber 1; section := None |})
    = lines (load ("a=1" +:+ nl +:+ "b=2")).
Proof. split; vm_compute; reflexivity. Qed.

(** C6, amended: on any file content, a single edit that replaces an
    existing key keeps the number of lines, writes key, ['='], value at the
    key's line and leaves every other line as it was: the text of exactly
    one line changes when that line did not read key, ['='], value before,
    and of none when it did. *)
Theorem replace_preserves_shape (content : string) (e : ConfigLine) (i : nat) :
  lineIndices (load content) !! key e = Some i →
  value e ≠ VNull →
  printsInDecimal (value e) →
  length (lines (applyEdit (load content) e)) = length (lines (load content))
  ∧ i < length (lines (load content))
  ∧ lines (applyEdit (load content) e) !! i = Some (keyValueLine e)
  ∧ (∀ j, j ≠ i →
       lines (applyEdit (load content) e) !! j = lines (load content) !! j)
  ∧ (lines (load content) !! i ≠ Some (keyValueLine e) →
       ∀ j, lines (applyEdit (load content) e) !! j ≠ lines (load content) !! j
            ↔ j = i)
  ∧ (lines (load content) !! i = Some (keyValueLine e) →
       lines (applyEdit (load content) e) = lines (load content))
  ∧ updateConfigFile content [e]
    = Js.join (<[i := keyValueLine e]> (Js.split content)).
Proof.
  intros Hk Hv _.
  pose proof (recordedAt_lt _ _ _ _ (load_key_recorded _ _ _ Hk)) as Hi.
  unfold updateConfigFile, applyEdits, serialize. simpl foldl.
  rewrite (applyEdit_replace _ e i) by done.
  cbn [lines addedContent]. rewrite splice_replace by done.
  split; [apply length_insert|]. split; [done|].
  split; [by apply list_lookup_insert_eq|].
  split; [intros j Hj; by apply list_lookup_insert_ne|].
  split; [|split; [|done]].
  - intros Hold j. split.
    + intros Hj. destruct (decide (j = i)) as [->|Hne]; [done|].
      by rewrite list_lookup_insert_ne in Hj.
    + intros ->. rewrite list_lookup_insert_eq by done. congruence.
  - intros Hold. by apply list_insert_id.
Qed.

Lemma replace_preserves_shape_witness :
  lineIndices (load ("# c" +:+ nl +:+ "a = 1" +:+ nl +:+ "b=2")) !! "a" = Some 1
  ∧ updateConfigFile ("# c" +:+ nl +:+ "a = 1" +:+ nl +:+ "b=2")
      [ {| key := "a"; value := VNumber 7; section := None |} ]
    = Js.join (<[1 := "a=7"]> ["# c"; "a = 1"; "b=2"]).
Proof.
  split; [reflexivity|].
  apply (replace_preserves_shape ("# c" +:+ nl +:+ "a = 1" +:+ nl +:+ "b=2")
           {| key := "a"; value := VNumber 7; section := None |} 1).
  - reflexivity.
  - discriminate.
  - simpl. lia.
Defined.

(** *** Inserting a new key behind a section header *)



(** Scenario of the specification: insertion into the section [en]. *)
Example insert_scenario :
  updateConfigFile ("[en]" +:+ nl +:+ "foo=1" +:+ nl)
    [ {| key := "bar"; value := VNumber 2; section := Some "en" |} ]
  = "[en]" +:+ nl +:+ "bar=2" +:+ nl +:+ "foo=1" +:+ nl.
Proof. vm_compute. reflexivity. Qed.

(** ** The scan, exactly: the last matching line wins *)

Section LastMatch.

Lemma recordedAt_recordsUnder matcher (ls : list string) (k : string) (j : nat) :
  recordedAt matcher ls k j
  ↔ ∃ l, ls !! j = Some l ∧ recordsUnder matcher k l = true.
Proof.
  unfold recordedAt, recordsUnder. split.
  - intros (l & m & Hl & Hc & Hm & Hk). exists l. split; [done|].
    rewrite Hc, Hm. simpl. by apply bool_decide_eq_true_2.
  - intros (l & Hl & Hr). exists l.
    apply andb_prop in Hr as [Hc Hr]. apply negb_true_iff in Hc.
    destruct (matcher l) as [m|]; [|done].
    apply bool_decide_eq_true_1 in Hr. by exists m.
Qed.

Lemma scanLine_key_lookup (i : nat) (l : string)
    (ix : gmap string nat * gmap string nat) (k : string) :
  k ≠ "__proto__" →
  (scanLine i l ix).1 !! k
  = if recordsUnder keyMatch k l then Some i else ix.1 !! k.
Proof.
  intros Hproto. unfold scanLine, recordsUnder.
  destruct (Js.startsWith "#" l); [done|]. simpl.
  destruct (keyMatch l) as [m|]; [|done].
  rewrite setIndex_lookup. destruct (decide (Js.trim m = k)) as [Heq|Hne].
  - rewrite !bool_decide_eq_true_2; [done|done|]. by subst k.
  - rewrite !bool_decide_eq_false_2; [done|done|]. by intros [? _].
Qed.

Lemma scanLine_key_proto (i : nat) (l : string)
    (ix : gmap string nat * gmap string nat) :
  (scanLine i l ix).1 !! "__proto__" = ix.1 !! "__proto__".
Proof.
  unfold scanLine. destruct (Js.startsWith "#" l); [done|]. simpl.
  destruct (keyMatch l) as [m|]; [|done].
  rewrite setIndex_lookup. rewrite bool_decide_eq_false_2; [done|].
  by intros [-> ?].
Qed.

Lemma scanFrom_key_proto (i : nat) (ls : list string)
    (ix : gmap string nat * gmap string nat) :
  (scanFrom i ls ix).1 !! "__proto__" = ix.1 !! "__proto__".
Proof.
  revert i ix. induction ls as [|l ls IH]; intros i ix; [done|].
  cbn [scanFrom]. by rewrite IH, scanLine_key_proto.
Qed.

Lemma scanLine_section_lookup (i : nat) (l : string)
    (ix : gmap string nat * gmap string nat) (k : string) :
  k ≠ "__proto__" →
  (scanLine i l ix).2 !! k
  = if recordsUnder sectionMatch k l then Some i else ix.2 !! k.
Proof.
  intros Hproto. unfold scanLine, recordsUnder.
  destruct (Js.startsWith "#" l); [done|]. simpl.
  destruct (sectionMatch l) as [m|]; [|done].
  rewrite setIndex_lookup. destruct (decide (Js.trim m = k)) as [Heq|Hne].
  - rewrite !bool_decide_eq_true_2; [done|done|]. by subst k.
  - rewrite !bool_decide_eq_false_2; [done|done|]. by intros [? _].
Qed.

Lemma scanLine_section_proto (i : nat) (l : string)
    (ix : gmap string nat * gmap string nat) :
  (scanLine i l ix).2 !! "__proto__" = ix.2 !! "__proto__".
Proof.
  unfold scanLine. destruct (Js.startsWith "#" l); [done|]. simpl.
  destruct (sectionMatch l) as [m|]; [|done].
  rewrite setIndex_lookup. rewrite bool_decide_eq_false_2; [done|].
  by intros [-> ?].
Qed.

Lemma scanFrom_section_proto (i : nat) (ls : list string)
    (ix : gmap string nat * gmap string nat) :
  (scanFrom i ls ix).2 !! "__proto__" = ix.2 !! "__proto__".
Proof.
  revert i ix. induction ls as [|l ls IH]; intros i ix; [done|].
  cbn [scanFrom]. by rewrite IH, scanLine_section_proto.
Qed.

Lemma scanFrom_key_lookup (i : nat) (ls : list string)
    (ix : gmap string nat * gmap string nat) (k : string) :
  k ≠ "__proto__" →
  (scanFrom i ls ix).1 !! k
  = match lastMatch (recordsUnder keyMatch k) ls with
    | Some j => Some (i + j)
    | None => ix.1 !! k
    end.
Proof.
  intros Hproto.
  revert i ix. induction ls as [|l ls IH]; intros i ix; [done|].
  cbn [scanFrom lastMatch]. rewrite IH.
  destruct (lastMatch _ ls) as [j|].
  - f_equal. lia.
  - rewrite scanLine_key_lookup by done.
    destruct (recordsUnder keyMatch k l); [f_equal; lia|done].
Qed.

Lemma scanFrom_section_lookup (i : nat) (ls : list string)
    (ix : gmap string nat * gmap string nat) (k : string) :
  k ≠ "__proto__" →
  (scanFrom i ls ix).2 !! k
  = match lastMatch (recordsUnder sectionMatch k) ls with
    | Some j => Some (i + j)
    | None => ix.2 !! k
    end.
Proof.
  intros Hproto.
  revert i ix. induction ls as [|l ls IH]; intros i ix; [done|].
  cbn [scanFrom lastMatch]. rewrite IH.
  destruct (lastMatch _ ls) as [j|].
  - f_equal. lia.
  - rewrite scanLine_section_lookup by done.
    destruct (recordsUnder sectionMatch k l); [f_equal; lia|done].
Qed.

Lemma lastMatch_None (P : string → bool) (ls : list string) :
  lastMatch P ls = None ↔ ∀ j l, ls !! j = Some l → P l = false.
Proof.
  induction ls as [|x ls IH]; simpl.
  - split; [|done]. intros _ j l Hl. by rewrite lookup_nil in Hl.
  - destruct (lastMatch P ls) as [j0|] eqn:Hlast.
    + split; [done|]. intros Hall. exfalso.
      assert (Some j0 = None) as Hno; [|done].
      apply IH. intros j l Hl. by apply (Hall (S j)).
    + destruct (P x) eqn:Hx.
      * split; [done|]. intros Hall. specialize (Hall 0 x eq_refl). congruence.
      * split; [|done]. intros _ [|j] l Hl.
        -- by inversion Hl; subst.
        -- by apply (proj1 IH eq_refl j).
Qed.

Lemma lastMatch_Some (P : string → bool) (ls : list string) (j : nat) :
  lastMatch P ls = Some j
  ↔ (∃ l, ls !! j = Some l ∧ P l = true)
    ∧ ∀ j' l', j < j' → ls !! j' = Some l' → P l' = false.
Proof.
  revert j. induction ls as [|x ls IH]; intros j; simpl.
  - split; [done|]. intros [(l & Hl & _) _]. by rewrite lookup_nil in Hl.
  - destruct (lastMatch P ls) as [j0|] eqn:Hlast.
    + destruct (proj1 (IH j0) eq_refl) as [(l0 & Hl0 & HP0) Hafter0]. split.
      * intros [= <-]. split; [by exists l0|].
        intros [|j'] l' Hj' Hl'; [lia|]. apply (Hafter0 j'); [lia|done].
      * intros [(l & Hl & HP) Hafter]. f_equal.
        destruct j as [|j].
        { specialize (Hafter (S j0) l0). simpl in Hafter.
          rewrite Hafter in HP0; [done|lia|done]. }
        f_equal. assert (Some j0 = Some j) as [= ->]; [|done].
        apply IH. split; [by exists l|].
        intros j' l' Hj' Hl'. apply (Hafter (S j')); [lia|done].
    + pose proof (proj1 (lastMatch_None P ls) Hlast) as Hnone.
      destruct (P x) eqn:Hx.
      * split.
        -- intros [= <-]. split; [by exists x|].
           intros [|j'] l' Hj' Hl'; [lia|]. by apply (Hnone j').
        -- intros [(l & Hl & HP) _]. destruct j as [|j]; [done|].
           simpl in Hl. rewrite (Hnone j l Hl) in HP. done.
      * split; [done|]. intros [(l & Hl & HP) _]. destruct j as [|j].
        -- inversion Hl; subst. congruence.
        -- simpl in Hl. rewrite (Hnone j l Hl) in HP. done.
Qed.

Lemma lastMatch_recordedAt matcher (ls : list string) (k : string) (j : nat) :
  lastMatch (recordsUnder matcher k) ls = Some j
  ↔ recordedAt matcher ls k j
    ∧ ∀ j', j < j' → ¬ recordedAt matcher ls k j'.
Proof.
  rewrite lastMatch_Some, recordedAt_recordsUnder. split.
  - intros [Hj Hafter]. split; [done|].
    intros j' Hj' (l' & Hl' & HP)%recordedAt_recordsUnder.
    rewrite (Hafter j' l') in HP; done.
  - intros [Hj Hafter]. split; [done|].
    intros j' l' Hj' Hl'. destruct (recordsUnder matcher k l') eqn:HP; [|done].
    destruct (Hafter j' Hj'). apply recordedAt_recordsUnder. eauto.
Qed.

Lemma load_key_lookup (content k : string) :
  k ≠ "__proto__" →
  lineIndices (load content) !! k
  = lastMatch (recordsUnder keyMatch k) (Js.split content).
Proof.
  intros Hproto. unfold load. cbn [lineIndices].
  rewrite scanFrom_key_lookup by done.
  by destruct (lastMatch _ _).
Qed.

Lemma load_key_proto (content : string) :
  lineIndices (load content) !! "__proto__" = None.
Proof. unfold load. cbn [lineIndices]. by rewrite scanFrom_key_proto. Qed.

Lemma load_section_lookup (content k : string) :
  k ≠ "__proto__" →
  sectionIndices (load content) !! k
  = lastMatch (recordsUnder sectionMatch k) (Js.split content).
Proof.
  intros Hproto. unfold load. cbn [sectionIndices].
  rewrite scanFrom_section_lookup by done.
  by destruct (lastMatch _ _).
Qed.

Lemma load_section_proto (content : string) :
  sectionIndices (load content) !! "__proto__" = None.
Proof. unfold load. cbn [sectionIndices]. by rewrite scanFrom_section_proto. Qed.

Lemma load_key_absent (content k : string) :
  k ≠ "__proto__" →
  lineIndices (load content) !! k = None
  ↔ ∀ j, ¬ recordedAt keyMatch (Js.split content) k j.
Proof.
  intros Hproto. rewrite load_key_lookup, lastMatch_None by done. split.
  - intros Hnone j (l & Hl & HP)%recordedAt_recordsUnder.
    rewrite (Hnone j l Hl) in HP. done.
  - intros Hnone j l Hl. destruct (recordsUnder keyMatch k l) eqn:HP; [|done].
    destruct (Hnone j). apply recordedAt_recordsUnder. eauto.
Qed.

End LastMatch.

(** X1. After the scan, a key is recorded at line [j] exactly when it is
    not [__proto__] and line [j] is the last line of the file that is no
    comment and matches the key pattern under that key; likewise a section
    name is recorded at the last header line of that name.  For the name
    [__proto__] nothing is recorded. *)
Theorem scan_records_last_match (content k : string) (j : nat) :
  (lineIndices (load content) !! k = Some j
   ↔ k ≠ "__proto__"
     ∧ recordedAt keyMatch (lines (load content)) k j
     ∧ ∀ j', j < j' → ¬ recordedAt keyMatch (lines (load content)) k j')
  ∧ (sectionIndices (load content) !! k = Some j
     ↔ k ≠ "__proto__"
       ∧ recordedAt sectionMatch (lines (load content)) k j
       ∧ ∀ j', j < j' → ¬ recordedAt sectionMatch (lines (load content)) k j').
Proof.
  destruct (decide (k = "__proto__")) as [->|Hproto].
  - rewrite load_key_proto, load_section_proto.
    split; (split; [done|by intros [? _]]).
  - rewrite load_key_lookup, load_section_lookup by done. cbn [load lines].
    split; rewrite lastMatch_recordedAt;
      (split; [intros [Hr Hlast]; by repeat split
              |intros (_ & Hr & Hlast); by split]).
Qed.

(** ** What a recorded key looks like *)

Section RecordedKeys.

Lemma allSpace_trimEnd (s : string) :
  Js.allSpace s = false → Js.allSpace (Js.trimEnd s) = false.
Proof.
  induction s as [|c r IH]; [done|]. intros Hs.
  cbn [Js.trimEnd]. rewrite Hs. simpl in *.
  destruct (Js.isSpace c); [|done]. by apply IH.
Qed.

Lemma trimEnd_idem (s : string) : Js.trimEnd (Js.trimEnd s) = Js.trimEnd s.
Proof.
  induction s as [|c r IH]; [done|]. cbn [Js.trimEnd].
  destruct (Js.allSpace (String c r)) eqn:Hs; [done|].
  pose proof (allSpace_trimEnd _ Hs) as Hs'.
  cbn [Js.trimEnd] in Hs'. rewrite Hs in Hs'.
  cbn [Js.trimEnd]. by rewrite Hs', IH.
Qed.

Lemma trimStart_head (s : string) :
  Js.trimStart s = ""
  ∨ ∃ c r, Js.trimStart s = String c r ∧ Js.isSpace c = false.
Proof.
  induction s as [|c r IH]; [by left|]. simpl.
  destruct (Js.isSpace c) eqn:Hc; [done|]. right. eauto.
Qed.

Lemma trimEnd_cons (c : ascii) (r : string) :
  Js.isSpace c = false → Js.trimEnd (String c r) = String c (Js.trimEnd r).
Proof. intros Hc. simpl. by rewrite Hc. Qed.

Lemma trim_idem (s : string) : Js.trim (Js.trim s) = Js.trim s.
Proof.
  unfold Js.trim. destruct (trimStart_head s) as [->|(c & r & -> & Hc)]; [done|].
  rewrite trimEnd_cons by done. cbn [Js.trimStart]. rewrite Hc.
  rewrite trimEnd_cons by done. by rewrite trimEnd_idem.
Qed.

Lemma noChar_trimStart (d : ascii) (s : string) :
  noChar d s = true → noChar d (Js.trimStart s) = true.
Proof.
  induction s as [|c r IH]; [done|]. intros Hs. simpl.
  destruct (Js.isSpace c); [|done].
  simpl in Hs. apply andb_prop in Hs as [_ Hr]. by apply IH.
Qed.

Lemma noChar_trimEnd (d : ascii) (s : string) :
  noChar d s = true → noChar d (Js.trimEnd s) = true.
Proof.
  induction s as [|c r IH]; [done|]. intros Hs. cbn [Js.trimEnd].
  destruct (Js.allSpace (String c r)); [done|].
  simpl in *. apply andb_prop in Hs as [-> Hr]. by apply IH.
Qed.

Lemma recorded_key_form (content k : string) (j : nat) :
  lineIndices (load content) !! k = Some j →
  Js.trim k = k ∧ noChar "=" k = true.
Proof.
  intros (l & m & _ & _ & Hm & <-)%load_key_recorded.
  split; [apply trim_idem|].
  apply keyMatch_shape in Hm as (p & r & _ & _ & _ & Hn).
  by apply noChar_trimEnd, noChar_trimStart.
Qed.

End RecordedKeys.

(** No inherited name holds an ['='] or white space at either end. *)
Lemma prototypeNames_form (k : string) :
  k ∈ prototypeNames → noChar "=" k = true ∧ Js.trim k = k.
Proof.
  unfold prototypeNames. intros Hk.
  repeat (apply elem_of_cons in Hk as [->|Hk]); [..|by apply elem_of_nil in Hk];
    by split.
Qed.

(** X2. A key that holds an ['='] or that starts or ends with white space is
    never in [lineIndices], whatever the file holds, and reading it gives
    [undefined]: an edit for such a key is never a replacement or a
    deletion, only an insertion, an append or nothing. *)
Theorem untrimmed_key_is_never_found (content k : string) :
  noChar "=" k = false ∨ Js.trim k ≠ k →
  lineIndices (load content) !! k = None
  ∧ getIndex (lineIndices (load content)) k = Undefined.
Proof.
  intros Hk.
  assert (lineIndices (load content) !! k = None) as Hnone.
  { destruct (lineIndices (load content) !! k) as [j|] eqn:Hj; [|done].
    apply recorded_key_form in Hj as [Htrim Hn].
    destruct Hk as [Hk|Hk]; [congruence|done]. }
  split; [done|]. apply getIndex_Undefined. split; [done|].
  intros [Hn Htrim]%prototypeNames_form.
  destruct Hk as [Hk|Hk]; [congruence|done].
Qed.

Lemma untrimmed_key_is_never_found_witness :
  lineIndices (load ("a=b=1" +:+ nl +:+ " c =2")) !! "a=b" = None
  ∧ lineIndices (load ("a=b=1" +:+ nl +:+ " c =2")) !! " c " = None
  ∧ lineIndices (load ("a=b=1" +:+ nl +:+ " c =2")) !! "c" = Some 1.
Proof.
  split; [|split; [|reflexivity]].
  - apply (untrimmed_key_is_never_found ("a=b=1" +:+ nl +:+ " c =2") "a=b").
    left. reflexivity.
  - apply (untrimmed_key_is_never_found ("a=b=1" +:+ nl +:+ " c =2") " c ").
    right. discriminate.
Defined.

(** ** One edit and the entries of the indexes *)

Section Tracking.

Implicit Types (st : State) (e : ConfigLine) (m : gmap string nat).

Lemma splice_delete {A} (a : list A) (d : nat) :
  Js.splice a d 1 [] = delete d a.
Proof.
  unfold Js.splice. rewrite delete_take_drop. simpl.
  by replace (d + 1) with (S d) by lia.
Qed.

Lemma splice_replace_lookup_ne {A} (a : list A) (i j : nat) (x l : A) :
  a !! j = Some l → j ≠ i → Js.splice a i 1 [x] !! j = Some l.
Proof.
  intros Hl Hne. pose proof (lookup_lt_Some _ _ _ Hl) as Hj.
  destruct (decide (i < length a)) as [Hi|Hi].
  - rewrite splice_replace by done. by rewrite list_lookup_insert_ne.
  - unfold Js.splice. rewrite take_ge by lia. by rewrite lookup_app_l.
Qed.

Lemma splice_insert_lookup_before {A} (a : list A) (p j : nat) (x l : A) :
  a !! j = Some l → j < p → Js.splice a p 0 [x] !! j = Some l.
Proof.
  intros Hl Hp. pose proof (lookup_lt_Some _ _ _ Hl) as Hj.
  unfold Js.splice. rewrite lookup_app_l by (rewrite length_take; lia).
  by rewrite lookup_take_lt.
Qed.

(** An index that is left alone or shifted as the edit shifts it keeps each
    of its entries on the text it pointed at, the line of the edited key
    apart, when the edit reads no inherited property. *)
Lemma pointsAt_after_edit st e m m' (k l : string) :
  getIndex (lineIndices st) (key e) ≠ Inherited →
  (getIndex (lineIndices st) (key e) = Undefined →
   getIndex (sectionIndices st) (sectionKey (section e)) ≠ Inherited) →
  (∀ i, lineIndices st !! key e = Some i → m !! k ≠ Some i) →
  (∀ i, lineIndices st !! key e = Some i → value e ≠ VNull → m' = m) →
  (∀ d, lineIndices st !! key e = Some d → value e = VNull →
        m' = shiftEntries (λ index, index - 1) d m) →
  (getIndex (lineIndices st) (key e) = Undefined → value e = VNull → m' = m) →
  (∀ s, getIndex (lineIndices st) (key e) = Undefined → value e ≠ VNull →
        sectionIndices st !! sectionKey (section e) = Some s →
        m' = shiftEntries (λ index, index + 1) s m) →
  (getIndex (lineIndices st) (key e) = Undefined → value e ≠ VNull →
   getIndex (sectionIndices st) (sectionKey (section e)) = Undefined →
   m' = m) →
  pointsAt m (lines st) k l →
  pointsAt m' (lines (applyEdit st e)) k l.
Proof.
  intros Hown Hsown Hoff Hrep Hdel Hnop Hins Happ (j & Hj & Hl).
  assert (value e = VNull ∨ value e ≠ VNull) as [Hv|Hv]
    by (destruct (value e); auto).
  - destruct (getIndex (lineIndices st) (key e)) as [|d|] eqn:Hk; [| |done].
    + rewrite applyEdit_noop, Hnop by done. by exists j.
    + apply getIndex_Index in Hk.
      rewrite (applyEdit_delete st e d), (Hdel d) by done.
      cbn [lines]. rewrite splice_delete.
      assert (j ≠ d) as Hjd by (intros ->; by apply (Hoff d)).
      destruct (decide (d < j)) as [Hlt|Hge].
      * exists (j - 1). rewrite shiftEntries_lookup, Hj. simpl.
        rewrite decide_True by done. split; [done|].
        rewrite list_lookup_delete_ge by lia.
        by replace (S (j - 1)) with j by lia.
      * exists j. rewrite shiftEntries_lookup, Hj. simpl.
        rewrite decide_False by done. split; [done|].
        by rewrite list_lookup_delete_lt by lia.
  - destruct (getIndex (lineIndices st) (key e)) as [|i|] eqn:Hk; [| |done].
    + destruct (getIndex (sectionIndices st) (sectionKey (section e)))
        as [|s|] eqn:Hs; [| |by destruct Hsown].
      * rewrite applyEdit_append, Happ by done. by exists j.
      * apply getIndex_Index in Hs.
        rewrite (applyEdit_insert st e s), (Hins s) by done. cbn [lines].
        destruct (decide (s < j)) as [Hlt|Hge].
        -- exists (S j). rewrite shiftEntries_lookup, Hj. simpl.
           rewrite decide_True by done. split; [f_equal; lia|].
           rewrite splice_insert_lookup_gt by lia. done.
        -- exists j. rewrite shiftEntries_lookup, Hj. simpl.
           rewrite decide_False by done. split; [done|].
           apply splice_insert_lookup_before; [done|lia].
    + apply getIndex_Index in Hk.
      rewrite (applyEdit_replace st e i), (Hrep i) by done.
      cbn [lines]. exists j. split; [done|].
      apply splice_replace_lookup_ne; [done|].
      intros ->. by apply (Hoff i).
Qed.

End Tracking.

(** X3. Whatever the state of the batch, for an edit that reads no
    inherited property, every key entry and every section entry that
    points at a line of the buffer, other than the line of the edited key,
    points at the same text after the edit: insertions and deletions shift
    the recorded line numbers together with the lines. *)
Theorem edit_keeps_entries_on_their_lines (st : State) (e : ConfigLine)
    (k l : string) :
  getIndex (lineIndices st) (key e) ≠ Inherited →
  (getIndex (lineIndices st) (key e) = Undefined →
   getIndex (sectionIndices st) (sectionKey (section e)) ≠ Inherited) →
  (∀ i, lineIndices st !! key e = Some i →
        lineIndices st !! k ≠ Some i ∧ sectionIndices st !! k ≠ Some i) →
  (pointsAt (lineIndices st) (lines st) k l →
   pointsAt (lineIndices (applyEdit st e)) (lines (applyEdit st e)) k l)
  ∧ (pointsAt (sectionIndices st) (lines st) k l →
     pointsAt (sectionIndices (applyEdit st e)) (lines (applyEdit st e)) k l).
Proof.
  intros Hown Hsown Hoff. split; apply pointsAt_after_edit; try done.
  all: try (intros i Hi; by apply (Hoff i)).
  all: try (intros; subst;
            first [ by rewrite (applyEdit_replace st e i)
                  | by rewrite (applyEdit_delete st e d)
                  | by rewrite applyEdit_noop
                  | by rewrite (applyEdit_insert st e s)
                  | by rewrite applyEdit_append ]).
Qed.

Lemma edit_keeps_entries_on_their_lines_witness :
  pointsAt (lineIndices (load ("a=1" +:+ nl +:+ "[s]" +:+ nl +:+ "b=2")))
           (lines (load ("a=1" +:+ nl +:+ "[s]" +:+ nl +:+ "b=2"))) "b" "b=2"
  ∧ pointsAt
      (lineIndices (applyEdit (load ("a=1" +:+ nl +:+ "[s]" +:+ nl +:+ "b=2"))
                      {| key := "a"; value := VNull; section := None |}))
      (lines (applyEdit (load ("a=1" +:+ nl +:+ "[s]" +:+ nl +:+ "b=2"))
                {| key := "a"; value := VNull; section := None |})) "b" "b=2".
Proof.
  assert (pointsAt
            (lineIndices (load ("a=1" +:+ nl +:+ "[s]" +:+ nl +:+ "b=2")))
            (lines (load ("a=1" +:+ nl +:+ "[s]" +:+ nl +:+ "b=2"))) "b" "b=2")
    as Hb by (exists 2; split; reflexivity).
  split; [exact Hb|].
  refine (proj1 (edit_keeps_entries_on_their_lines
                   (load ("a=1" +:+ nl +:+ "[s]" +:+ nl +:+ "b=2"))
                   {| key := "a"; value := VNull; section := None |}
                   "b" "b=2" _ _ _) Hb).
  - vm_compute. discriminate.
  - vm_compute. discriminate.
  - intros i Hi. vm_compute in Hi. inversion Hi; subst i.
    split; vm_compute; discriminate.
Defined.

(** ** Deleting *)

(** X4. On any file content, a single edit that deletes an existing key
    removes exactly the line recorded for the key: the buffer loses that one
    line, the lines before it stay in place, the lines behind it move up by
    one, and the content written is the remaining lines joined. *)
Theorem delete_removes_one_line (content : string) (e : ConfigLine) (d : nat) :
  lineIndices (load content) !! key e = Some d →
  value e = VNull →
  d < length (Js.split content)
  ∧ lines (applyEdit (load content) e) = delete d (Js.split content)
  ∧ S (length (lines (applyEdit (load content) e))) = length (Js.split content)
  ∧ (∀ j, j < d →
       lines (applyEdit (load content) e) !! j = Js.split content !! j)
  ∧ (∀ j, d ≤ j →
       lines (applyEdit (load content) e) !! j = Js.split content !! S j)
  ∧ updateConfigFile content [e] = Js.join (delete d (Js.split content)).
Proof.
  intros Hk Hv.
  pose proof (recordedAt_lt _ _ _ _ (load_key_recorded _ _ _ Hk)) as Hd.
  cbn [load lines] in Hd.
  unfold updateConfigFile, applyEdits, serialize. simpl foldl.
  rewrite (applyEdit_delete _ e d) by done.
  cbn [lines addedContent load]. rewrite splice_delete.
  split; [done|]. split; [done|]. split.
  { rewrite length_delete by (by apply lookup_lt_is_Some_2). lia. }
  split. { intros j Hj. by apply list_lookup_delete_lt. }
  split; [|done]. intros j Hj. by apply list_lookup_delete_ge.
Qed.

Lemma delete_removes_one_line_witness :
  lineIndices (load ("[en]" +:+ nl +:+ "mode=Validium" +:+ nl +:+ "x=1")) !! "mode"
    = Some 1
  ∧ updateConfigFile ("[en]" +:+ nl +:+ "mode=Validium" +:+ nl +:+ "x=1")
      [ {| key := "mode"; value := VNull; section := None |} ]
    = Js.join (delete 1 ["[en]"; "mode=Validium"; "x=1"]).
Proof.
  split; [reflexivity|].
  apply (delete_removes_one_line
           ("[en]" +:+ nl +:+ "mode=Validium" +:+ nl +:+ "x=1")
           {| key := "mode"; value := VNull; section := None |} 1);
    reflexivity.
Defined.

(** X5. A batch that only asks to delete keys for which [lineIndices] has
    no property writes the content back unchanged, however long the batch
    is; running it again on the result changes nothing either. *)
Theorem absent_deletes_change_nothing (content : string) (es : list ConfigLine) :
  Forall (λ e, getIndex (lineIndices (load content)) (key e) = Undefined
               ∧ value e = VNull) es →
  updateConfigFile content es = content
  ∧ updateConfigFile (updateConfigFile content es) es = content.
Proof.
  intros Hes.
  assert (applyEdits (load content) es = load content) as Hsame.
  { unfold applyEdits. induction Hes as [|e es [Hk Hv] _ IH]; [done|].
    simpl. by rewrite applyEdit_noop. }
  assert (updateConfigFile content es = content) as Hout.
  { unfold updateConfigFile. rewrite Hsame. apply (empty_state_round_trip content). }
  by rewrite !Hout.
Qed.

Lemma absent_deletes_change_nothing_witness :
  Forall (λ e, getIndex (lineIndices (load ("# a=1" +:+ nl +:+ "b=2"))) (key e)
               = Undefined
               ∧ value e = VNull)
         [ {| key := "a"; value := VNull; section := None |};
           {| key := "c"; value := VNull; section := Some "en" |} ]
  ∧ updateConfigFile ("# a=1" +:+ nl +:+ "b=2")
      [ {| key := "a"; value := VNull; section := None |};
        {| key := "c"; value := VNull; section := Some "en" |} ]
    = "# a=1" +:+ nl +:+ "b=2".
Proof.
  assert (Forall (λ e, getIndex (lineIndices (load ("# a=1" +:+ nl +:+ "b=2")))
                         (key e) = Undefined
                       ∧ value e = VNull)
            [ {| key := "a"; value := VNull; section := None |};
              {| key := "c"; value := VNull; section := Some "en" |} ]) as Hes.
  { repeat constructor. }
  split; [exact Hes|].
  exact (proj1 (absent_deletes_change_nothing _ _ Hes)).
Defined.

(** ** Batches of replacements *)

Section ReplaceBatch.

Implicit Types (st : State) (e : ConfigLine).

(** Two keys are never recorded at one line. *)
Lemma load_key_injective (content k1 k2 : string) (j : nat) :
  lineIndices (load content) !! k1 = Some j →
  lineIndices (load content) !! k2 = Some j → k1 = k2.
Proof.
  intros (l1 & m1 & Hl1 & _ & Hm1 & <-)%load_key_recorded
         (l2 & m2 & Hl2 & _ & Hm2 & <-)%load_key_recorded.
  congruence.
Qed.

Lemma replace_batch_shape st (es : list ConfigLine) :
  validOffsets st →
  Forall (λ e, is_Some (lineIndices st !! key e) ∧ value e ≠ VNull) es →
  lineIndices (applyEdits st es) = lineIndices st
  ∧ sectionIndices (applyEdits st es) = sectionIndices st
  ∧ addedContent (applyEdits st es) = addedContent st
  ∧ length (lines (applyEdits st es)) = length (lines st)
  ∧ validOffsets (applyEdits st es)
  ∧ ∀ j, (∀ e, e ∈ es → lineIndices st !! key e ≠ Some j) →
         lines (applyEdits st es) !! j = lines st !! j.
Proof.
  revert st. induction es as [|e es IH]; intros st Hvalid Hes; [done|].
  apply Forall_cons in Hes as [[[i Hi] Hv] Hes].
  unfold applyEdits in *. cbn [foldl].
  pose proof (applyEdit_validOffsets st e Hvalid (or_intror Hv)) as Hvalid1.
  pose proof (applyEdit_replace st e i Hi Hv) as Hstep.
  assert (i < length (lines st)) as Hlt by (apply (Hvalid (key e)); by left).
  set (st1 := applyEdit st e) in *.
  assert (lineIndices st1 = lineIndices st) as Hli by (by rewrite Hstep).
  assert (sectionIndices st1 = sectionIndices st) as Hsi by (by rewrite Hstep).
  assert (addedContent st1 = addedContent st) as Had by (by rewrite Hstep).
  assert (lines st1 = <[i := keyValueLine e]> (lines st)) as Hls.
  { rewrite Hstep. cbn [lines]. by apply splice_replace. }
  destruct (IH st1 Hvalid1) as (IH1 & IH2 & IH3 & IH4 & IH5 & IH6).
  { by rewrite Hli. }
  rewrite IH1, IH2, IH3, IH4, Hli, Hsi, Had, Hls, length_insert.
  repeat split; try done.
  intros j Hj. rewrite IH6.
  - rewrite Hls. apply list_lookup_insert_ne. intros ->.
    apply (Hj e); [by left|done].
  - intros e' He'. rewrite Hli. apply Hj. by right.
Qed.

End ReplaceBatch.

Lemma replace_batch_on_load (content : string) (es : list ConfigLine) :
  Forall (λ e, is_Some (lineIndices (load content) !! key e)
               ∧ value e ≠ VNull) es →
  lineIndices (applyEdits (load content) es) = lineIndices (load content)
  ∧ sectionIndices (applyEdits (load content) es) = sectionIndices (load content)
  ∧ addedContent (applyEdits (load content) es) = None
  ∧ length (lines (applyEdits (load content) es)) = length (Js.split content)
  ∧ (∀ j, (∀ e, e ∈ es → lineIndices (load content) !! key e ≠ Some j) →
          lines (applyEdits (load content) es) !! j = Js.split content !! j)
  ∧ (∀ es1 e es2 i, es = (es1 ++ e :: es2)%list →
          (∀ e', e' ∈ es2 → key e' ≠ key e) →
          lineIndices (load content) !! key e = Some i →
          lines (applyEdits (load content) es) !! i = Some (keyValueLine e)).
Proof.
  intros Hes.
  destruct (replace_batch_shape (load content) es (load_validOffsets content) Hes)
    as (H1 & H2 & H3 & H4 & _ & H6).
  do 5 (split; [done|]).
  intros es1 e es2 i -> Hlater Hi.
  apply Forall_app in Hes as [Hes1 Hes2].
  apply Forall_cons in Hes2 as [[_ Hv] Hes2].
  unfold applyEdits. rewrite foldl_app. cbn [foldl].
  fold (applyEdits (load content) es1).
  destruct (replace_batch_shape (load content) es1 (load_validOffsets content) Hes1)
    as (G1 & G2 & G3 & G4 & Gvalid & _).
  set (st1 := applyEdits (load content) es1) in *.
  assert (lineIndices st1 !! key e = Some i) as Hi1 by (by rewrite G1).
  assert (i < length (lines st1)) as Hlt by (apply (Gvalid (key e)); by left).
  pose proof (applyEdit_replace st1 e i Hi1 Hv) as Hstep.
  pose proof (applyEdit_validOffsets st1 e Gvalid (or_intror Hv)) as Hvalid2.
  set (st2 := applyEdit st1 e) in *.
  assert (lineIndices st2 = lineIndices (load content)) as Hli2
    by (by rewrite Hstep).
  fold (applyEdits st2 es2).
  destruct (replace_batch_shape st2 es2 Hvalid2) as (_ & _ & _ & _ & _ & F6).
  { by rewrite Hli2. }
  rewrite F6.
  - rewrite Hstep. cbn [lines]. rewrite splice_replace by done.
    by apply list_lookup_insert_eq.
  - intros e' He' Hi'. rewrite Hli2 in Hi'.
    apply (Hlater e' He'). by apply (load_key_injective content _ _ i).
Qed.

(** X6. A batch in which every edit gives a value to a key the file holds is
    a batch of replacements: the indexes are left as loaded, nothing is
    appended, the number of lines is unchanged, every line that no edit's
    key is recorded at is unchanged, and an edit whose key does not come
    again later in the batch leaves its line reading key, ['='], value.
    The values are strings or safe integers. *)
Theorem replace_batch_keeps_shape (content : string) (es : list ConfigLine) :
  Forall (λ e, is_Some (lineIndices (load content) !! key e)
               ∧ value e ≠ VNull ∧ printsInDecimal (value e)) es →
  lineIndices (applyEdits (load content) es) = lineIndices (load content)
  ∧ sectionIndices (applyEdits (load content) es) = sectionIndices (load content)
  ∧ addedContent (applyEdits (load content) es) = None
  ∧ length (lines (applyEdits (load content) es)) = length (Js.split content)
  ∧ (∀ j, (∀ e, e ∈ es → lineIndices (load content) !! key e ≠ Some j) →
          lines (applyEdits (load content) es) !! j = Js.split content !! j)
  ∧ (∀ es1 e es2 i, es = (es1 ++ e :: es2)%list →
          (∀ e', e' ∈ es2 → key e' ≠ key e) →
          lineIndices (load content) !! key e = Some i →
          lines (applyEdits (load content) es) !! i = Some (keyValueLine e)).
Proof.
  intros Hes. apply replace_batch_on_load.
  eapply Forall_impl; [exact Hes|]. by intros e (Hk & Hv & _).
Qed.

Lemma replace_batch_keeps_shape_witness :
  Forall (λ e, is_Some (lineIndices (load ("a=1" +:+ nl +:+ "b=2")) !! key e)
               ∧ value e ≠ VNull ∧ printsInDecimal (value e))
         [ {| key := "b"; value := VNumber 5; section := None |};
           {| key := "a"; value := VString "x"; section := None |} ]
  ∧ length (lines (applyEdits (load ("a=1" +:+ nl +:+ "b=2"))
                     [ {| key := "b"; value := VNumber 5; section := None |};
                       {| key := "a"; value := VString "x"; section := None |} ]))
    = length (Js.split ("a=1" +:+ nl +:+ "b=2")).
Proof.
  assert (Forall (λ e, is_Some (lineIndices (load ("a=1" +:+ nl +:+ "b=2")) !! key e)
                       ∧ value e ≠ VNull ∧ printsInDecimal (value e))
            [ {| key := "b"; value := VNumber 5; section := None |};
              {| key := "a"; value := VString "x"; section := None |} ]) as Hes.
  { repeat constructor; try discriminate; try (simpl; lia);
      vm_compute; eauto. }
  split; [exact Hes|].
  exact (proj1 (proj2 (proj2 (proj2 (replace_batch_keeps_shape _ _ Hes))))).
Defined.

(** ** Inserting and appending *)

(** X7. An inserted key is not added to [lineIndices] and the section entry
    stays on its header: when the same batch holds the edit a second time,
    the key, for which [lineIndices] still has no property, is again taken
    as new and its line is inserted once more, so the buffer ends with two
    equal lines behind the header. *)
Theorem repeated_insert_duplicates (content : string) (e : ConfigLine) (s : nat) :
  getIndex (lineIndices (load content)) (key e) = Undefined →
  value e ≠ VNull →
  printsInDecimal (value e) →
  sectionIndices (load content) !! sectionKey (section e) = Some s →
  getIndex (lineIndices (applyEdit (load content) e)) (key e) = Undefined
  ∧ sectionIndices (applyEdit (load content) e) !! sectionKey (section e)
    = Some s
  ∧ lines (applyEdits (load content) [e; e])
    = (take (S s) (Js.split content)
       ++ keyValueLine e :: keyValueLine e :: drop (S s) (Js.split content))%list.
Proof.
  intros Hk Hv _ Hs.
  pose proof (recordedAt_lt _ _ _ _ (load_section_recorded _ _ _ Hs)) as Hlt.
  cbn [load lines] in Hlt.
  assert (getIndex (lineIndices (applyEdit (load content) e)) (key e)
          = Undefined) as Hk'.
  { rewrite (applyEdit_insert _ e s) by done. cbn [lineIndices].
    apply getIndex_Undefined in Hk as [Hnone Hown].
    apply getIndex_Undefined. split; [|done].
    by rewrite shiftEntries_lookup, Hnone. }
  assert (sectionIndices (applyEdit (load content) e) !! sectionKey (section e)
          = Some s) as Hs'.
  { rewrite (applyEdit_insert _ e s) by done. cbn [sectionIndices].
    rewrite shiftEntries_lookup, Hs. simpl. by rewrite decide_False by lia. }
  split; [done|]. split; [done|].
  unfold applyEdits. cbn [foldl].
  rewrite (applyEdit_insert (applyEdit (load content) e) e s) by done.
  cbn [lines]. rewrite (applyEdit_insert _ e s) by done. cbn [lines load].
  unfold Js.splice. rewrite !Nat.add_0_r. replace (s + 1) with (S s) by lia.
  rewrite take_app_length', drop_app_length';
    [done|rewrite length_take; lia..].
Qed.

Lemma repeated_insert_duplicates_witness :
  getIndex (lineIndices (load ("[en]" +:+ nl +:+ "foo=1"))) "bar" = Undefined
  ∧ sectionIndices (load ("[en]" +:+ nl +:+ "foo=1")) !! "en" = Some 0
  ∧ lines (applyEdits (load ("[en]" +:+ nl +:+ "foo=1"))
             [ {| key := "bar"; value := VNumber 2; section := Some "en" |};
               {| key := "bar"; value := VNumber 2; section := Some "en" |} ])
    = (take 1 ["[en]"; "foo=1"] ++ "bar=2" :: "bar=2" :: drop 1 ["[en]"; "foo=1"])%list.
Proof.
  split; [reflexivity|]. split; [reflexivity|].
  apply (repeated_insert_duplicates ("[en]" +:+ nl +:+ "foo=1")
           {| key := "bar"; value := VNumber 2; section := Some "en" |} 0).
  - reflexivity.
  - discriminate.
  - simpl. lia.
  - reflexivity.
Defined.

(** X8. A single edit whose key is not read from the prototype never
    loses a comment line: every line of the file that starts with ['#'] is
    in the buffer after the edit, at its old position or one line up or
    down. *)
Theorem single_edit_keeps_comments (content : string) (e : ConfigLine)
    (i : nat) (line : string) :
  getIndex (lineIndices (load content)) (key e) ≠ Inherited →
  Js.split content !! i = Some line →
  Js.startsWith "#" line = true →
  ∃ i', lines (applyEdit (load content) e) !! i' = Some line
        ∧ (i' = i ∨ i' = S i ∨ S i' = i).
Proof.
  intros Hown Hl Hc.
  assert (lineIndices (load content) !! key e ≠ Some i) as Hne.
  { intros (l & m & Hl' & Hc' & _)%load_key_recorded.
    cbn [load lines] in Hl'. congruence. }
  assert (value e = VNull ∨ value e ≠ VNull) as [Hv|Hv]
    by (destruct (value e); auto).
  - destruct (getIndex (lineIndices (load content)) (key e)) as [|d|] eqn:Hk;
      [| |done].
    + rewrite applyEdit_noop by done. exists i. auto.
    + apply getIndex_Index in Hk.
      rewrite (applyEdit_delete _ e d) by done. cbn [lines load].
      rewrite splice_delete.
      assert (i ≠ d) by congruence.
      destruct (decide (i < d)).
      * exists i. rewrite list_lookup_delete_lt by done. auto.
      * exists (i - 1). rewrite list_lookup_delete_ge by lia.
        replace (S (i - 1)) with i by lia. split; [done|]. right. right. lia.
  - destruct (getIndex (lineIndices (load content)) (key e)) as [|d|] eqn:Hk;
      [| |done].
    + destruct (getIndex (sectionIndices (load content))
                  (sectionKey (section e))) as [|s|] eqn:Hs.
      * rewrite applyEdit_append by done. exists i. auto.
      * apply getIndex_Index in Hs.
        rewrite (applyEdit_insert _ e s) by done. cbn [lines load].
        destruct (decide (s < i)).
        -- exists (S i). rewrite splice_insert_lookup_gt by lia. auto.
        -- exists i. split; [|auto].
           apply splice_insert_lookup_before; [done|lia].
      * rewrite applyEdit_inherited_insert by done. cbn [lines load].
        exists (S i). rewrite splice_insert_lookup_gt by lia. auto.
    + apply getIndex_Index in Hk.
      rewrite (applyEdit_replace _ e d) by done. cbn [lines load].
      exists i. split; [|auto].
      apply splice_replace_lookup_ne; [done|congruence].
Qed.

Lemma single_edit_keeps_comments_witness :
  Js.split ("a=1" +:+ nl +:+ "# a=old") !! 1 = Some "# a=old"
  ∧ ∃ i', lines (applyEdit (load ("a=1" +:+ nl +:+ "# a=old"))
                   {| key := "a"; value := VNull; section := None |}) !! i'
          = Some "# a=old"
          ∧ (i' = 1 ∨ i' = 2 ∨ S i' = 1).
Proof.
  split; [reflexivity|].
  apply (single_edit_keeps_comments ("a=1" +:+ nl +:+ "# a=old")
           {| key := "a"; value := VNull; section := None |} 1 "# a=old");
    [vm_compute; discriminate|reflexivity..].
Defined.

(** X9. A single edit with a value, a string or a safe integer, for a key
    and a section whose properties in [lineIndices] and [sectionIndices]
    are undefined, leaves every line alone: the content written is the
    content read followed by key, ['='], value and a line break. *)
Theorem unresolved_edit_appends (content : string) (e : ConfigLine) :
  getIndex (lineIndices (load content)) (key e) = Undefined →
  value e ≠ VNull →
  printsInDecimal (value e) →
  getIndex (sectionIndices (load content)) (sectionKey (section e)) = Undefined →
  updateConfigFile content [e] = content +:+ keyValueLine e +:+ nl.
Proof. intros Hk Hv _ Hs. by apply append_single. Qed.

Lemma unresolved_edit_appends_witness :
  getIndex (sectionIndices (load ("[en]" +:+ nl +:+ "foo=1" +:+ nl))) "main"
    = Undefined
  ∧ updateConfigFile ("[en]" +:+ nl +:+ "foo=1" +:+ nl)
      [ {| key := "bar"; value := VString "x"; section := Some "main" |} ]
    = ("[en]" +:+ nl +:+ "foo=1" +:+ nl) +:+ "bar=x" +:+ nl.
Proof.
  split; [reflexivity|].
  apply (unresolved_edit_appends ("[en]" +:+ nl +:+ "foo=1" +:+ nl)
           {| key := "bar"; value := VString "x"; section := Some "main" |}).
  - reflexivity.
  - discriminate.
  - exact I.
  - reflexivity.
Defined.

(** X10. A batch of edits that all fall to the append action, each with a
    value that is a string or a safe integer and with undefined key and
    section properties, writes the content read followed by the line of
    its last edit only. *)
Theorem append_batch_writes_last_only (content : string)
    (es : list ConfigLine) (e : ConfigLine) :
  Forall (λ e', getIndex (lineIndices (load content)) (key e') = Undefined
                ∧ value e' ≠ VNull ∧ printsInDecimal (value e')
                ∧ getIndex (sectionIndices (load content))
                    (sectionKey (section e')) = Undefined)
         (es ++ [e]) →
  updateConfigFile content (es ++ [e]) = content +:+ keyValueLine e +:+ nl.
Proof.
  intros Hes. apply Forall_app in Hes as [Hes He].
  apply Forall_cons in He as [(Hk & Hv & _ & Hs) _].
  assert (∀ st, lines st = lines (load content) →
                lineIndices st = lineIndices (load content) →
                sectionIndices st = sectionIndices (load content) →
                lines (applyEdits st es) = lines (load content)
                ∧ lineIndices (applyEdits st es) = lineIndices (load content)
                ∧ sectionIndices (applyEdits st es) = sectionIndices (load content))
    as Hkeep.
  { unfold applyEdits.
    induction Hes as [|e1 es1 (Hk1 & Hv1 & _ & Hs1) _ IH];
      intros st H1 H2 H3; [done|].
    cbn [foldl]. apply IH.
    all: rewrite applyEdit_append by (by rewrite ?H2, ?H3); by cbn. }
  destruct (Hkeep (load content) eq_refl eq_refl eq_refl) as (H1 & H2 & H3).
  unfold updateConfigFile, applyEdits. rewrite foldl_app. cbn [foldl].
  fold (applyEdits (load content) es).
  rewrite applyEdit_append by (by rewrite ?H2, ?H3).
  unfold serialize. cbn [lines addedContent]. rewrite H1. cbn [load lines].
  rewrite join_split. unfold keyValueLine, nl.
  by destruct (key e).
Qed.

Lemma append_batch_writes_last_only_witness :
  Forall (λ e', getIndex (lineIndices (load ("x=0" +:+ nl))) (key e') = Undefined
                ∧ value e' ≠ VNull ∧ printsInDecimal (value e')
                ∧ getIndex (sectionIndices (load ("x=0" +:+ nl)))
                    (sectionKey (section e')) = Undefined)
         ([ {| key := "a"; value := VNumber 1; section := None |};
            {| key := "b"; value := VNumber 2; section := Some "s" |} ]
          ++ [ {| key := "c"; value := VNumber 3; section := None |} ])
  ∧ updateConfigFile ("x=0" +:+ nl)
      ([ {| key := "a"; value := VNumber 1; section := None |};
         {| key := "b"; value := VNumber 2; section := Some "s" |} ]
       ++ [ {| key := "c"; value := VNumber 3; section := None |} ])
    = ("x=0" +:+ nl) +:+ "c=3" +:+ nl.
Proof.
  assert (Forall (λ e', getIndex (lineIndices (load ("x=0" +:+ nl))) (key e') = Undefined
                        ∧ value e' ≠ VNull ∧ printsInDecimal (value e')
                        ∧ getIndex (sectionIndices (load ("x=0" +:+ nl)))
                            (sectionKey (section e')) = Undefined)
            ([ {| key := "a"; value := VNumber 1; section := None |};
               {| key := "b"; value := VNumber 2; section := Some "s" |} ]
             ++ [ {| key := "c"; value := VNumber 3; section := None |} ])) as Hes.
  { repeat constructor; try discriminate; simpl; lia. }
  split; [exact Hes|].
  exact (append_batch_writes_last_only _ _ _ Hes).
Defined.

(** X11. After loading, every recorded line number is an offset into the
    line buffer, and a batch without deletions keeps it so from edit to
    edit: replacements, insertions and appends never leave an entry
    outside the buffer. *)
Theorem batch_without_delete_keeps_offsets_valid (content : string)
    (es : list ConfigLine) :
  Forall (λ e, value e ≠ VNull) es →
  validOffsets (load content)
  ∧ ∀ es1 es2, es = (es1 ++ es2)%list →
      validOffsets (applyEdits (load content) es1).
Proof.
  intros Hes. split; [apply load_validOffsets|].
  intros es1 es2 ->. apply Forall_app in Hes as [Hes _].
  induction es1 as [|e es1 IH] using rev_ind; [apply load_validOffsets|].
  apply Forall_app in Hes as [Hes He]. apply Forall_cons in He as [He _].
  unfold applyEdits. rewrite foldl_app. cbn [foldl].
  apply applyEdit_validOffsets; [by apply IH|by right].
Qed.

Lemma batch_without_delete_keeps_offsets_valid_witness :
  Forall (λ e, value e ≠ VNull)
         [ {| key := "a"; value := VNumber 1; section := Some "s" |};
           {| key := "b"; value := VNumber 2; section := None |} ]
  ∧ validOffsets
      (applyEdits (load ("[s]" +:+ nl +:+ "b=0"))
         [ {| key := "a"; value := VNumber 1; section := Some "s" |};
           {| key := "b"; value := VNumber 2; section := None |} ]).
Proof.
  assert (Forall (λ e, value e ≠ VNull)
            [ {| key := "a"; value := VNumber 1; section := Some "s" |};
              {| key := "b"; value := VNumber 2; section := None |} ]) as Hes.
  { repeat constructor; discriminate. }
  split; [exact Hes|].
  exact (proj2 (batch_without_delete_keeps_offsets_valid
                  ("[s]" +:+ nl +:+ "b=0") _ Hes) _ [] (eq_sym (app_nil_r _))).
Defined.

(** ** Reading back what was written *)

Section ReadBack.

Local Arguments String.append !_ _ / : simpl nomatch.

Lemma split_pieces (s : string) :
  Forall (λ l, noChar "010" l = true) (Js.split s).
Proof.
  induction s as [|c r IH]; [by repeat constructor|]. cbn [Js.split].
  destruct (Js.isChar "010" c) eqn:Hc; [by constructor|].
  destruct (Js.split r) as [|h t].
  - repeat constructor. simpl. by rewrite Hc.
  - apply Forall_cons in IH as [Hh Ht]. constructor; [|done].
    simpl. by rewrite Hc, Hh.
Qed.

Lemma split_one (x : string) : noChar "010" x = true → Js.split x = [x].
Proof.
  induction x as [|c r IH]; [done|]. simpl.
  intros [Hc Hr]%andb_prop. apply negb_true_iff in Hc.
  by rewrite Hc, IH.
Qed.

Lemma split_line_break (x t : string) :
  noChar "010" x = true →
  Js.split (x +:+ String "010" t) = x :: Js.split t.
Proof.
  induction x as [|c r IH]; simpl.
  - done.
  - intros [Hc Hr]%andb_prop. apply negb_true_iff in Hc.
    by rewrite Hc, IH.
Qed.

Lemma split_join (ls : list string) :
  ls ≠ [] → Forall (λ l, noChar "010" l = true) ls →
  Js.split (Js.join ls) = ls.
Proof.
  induction ls as [|x [|y r] IH]; intros Hne Hls; [done| |].
  - apply Forall_cons in Hls as [Hx _]. by apply split_one.
  - apply Forall_cons in Hls as [Hx Hr]. rewrite join_cons_cons.
    rewrite split_line_break by done. f_equal. by apply IH.
Qed.

Lemma delete_inserted {A} (l : list A) (p : nat) (x : A) :
  p ≤ length l → delete p (take p l ++ x :: drop p l)%list = l.
Proof.
  intros Hp. rewrite delete_take_drop.
  rewrite take_app_length' by (rewrite length_take; lia).
  rewrite drop_app_ge by (rewrite length_take; lia).
  rewrite length_take, Nat.min_l by lia.
  replace (S p - p) with 1 by lia. simpl. rewrite drop_0. apply take_drop.
Qed.

(** A new key inserted behind a header and deleted on the next run: the
    file is as it was. *)
Lemma insert_then_delete (content : string) (e e' : ConfigLine) (s : nat) :
  getIndex (lineIndices (load content)) (key e) = Undefined →
  value e ≠ VNull →
  sectionIndices (load content) !! sectionKey (section e) = Some s →
  recordsUnder keyMatch (key e) (keyValueLine e) = true →
  noChar "010" (keyValueLine e) = true →
  key e' = key e → value e' = VNull →
  updateConfigFile (updateConfigFile content [e]) [e'] = content.
Proof.
  intros Hk Hv Hs Hrec Hnl Hkey Hv'.
  pose proof (recordedAt_lt _ _ _ _ (load_section_recorded _ _ _ Hs)) as Hlt.
  cbn [load lines] in Hlt.
  pose proof (proj1 (getIndex_Undefined _ _) Hk) as [Hnone Hown].
  assert (key e ≠ "__proto__") as Hproto.
  { intros Heq. apply Hown. rewrite Heq. unfold prototypeNames.
    apply (list_elem_of_lookup_2 _ 10). reflexivity. }
  set (ls := Js.split content) in *.
  set (ls' := (take (S s) ls ++ keyValueLine e :: drop (S s) ls)%list).
  assert (updateConfigFile content [e] = Js.join ls') as Hout.
  { unfold updateConfigFile, applyEdits, serialize. cbn [foldl].
    rewrite (applyEdit_insert _ e s) by done. cbn [lines addedContent load].
    unfold Js.splice. rewrite Nat.add_0_r.
    by replace (s + 1) with (S s) by lia. }
  assert (Js.split (Js.join ls') = ls') as Hback.
  { apply split_join; [by destruct (take (S s) ls)|].
    pose proof (split_pieces content) as Hp. fold ls in Hp.
    apply Forall_app. split; [by apply Forall_take|].
    constructor; [done|by apply Forall_drop]. }
  assert (ls' !! S s = Some (keyValueLine e)) as Hnew.
  { unfold ls'. rewrite lookup_app_r by (rewrite length_take; lia).
    by rewrite length_take, Nat.min_l, Nat.sub_diag by lia. }
  assert (lineIndices (load (Js.join ls')) !! key e' = Some (S s)) as Hfound.
  { rewrite Hkey, load_key_lookup, Hback by done. apply lastMatch_Some. split.
    - by exists (keyValueLine e).
    - intros j' l' Hj' Hl'.
      rewrite load_key_lookup in Hnone by done. fold ls in Hnone.
      apply (proj1 (lastMatch_None _ _) Hnone (j' - 1)).
      destruct j' as [|j']; [lia|].
      replace (S j' - 1) with j' by lia.
      rewrite <- Hl'. symmetry.
      assert (S s ≤ j') as Hg by lia.
      apply (splice_insert_lookup_gt ls (S s) j' (keyValueLine e)) in Hg.
      unfold Js.splice in Hg. by rewrite Nat.add_0_r in Hg. }
  rewrite Hout.
  unfold updateConfigFile, applyEdits, serialize. cbn [foldl].
  rewrite (applyEdit_delete _ e' (S s)) by done.
  cbn [lines addedContent load]. rewrite Hback, splice_delete.
  unfold ls'. rewrite delete_inserted by lia. apply join_split.
Qed.

End ReadBack.

(** ** The callers *)

Section Callers.

(** The content written for a batch of one edit, action by action. *)
Lemma single_edit_output (content : string) (e : ConfigLine) :
  updateConfigFile content [e]
  = match getIndex (lineIndices (load content)) (key e) with
    | Index i =>
        match value e with
        | VNull => Js.join (delete i (Js.split content))
        | _ => Js.join (<[i := keyValueLine e]> (Js.split content))
        end
    | Inherited =>
        match value e with
        | VNull => Js.join (delete 0 (Js.split content))
        | _ => Js.join (<[0 := keyValueLine e]> (Js.split content))
        end
    | Undefined =>
        match value e with
        | VNull => content
        | _ =>
            match getIndex (sectionIndices (load content))
                    (sectionKey (section e)) with
            | Index s =>
                Js.join (take (S s) (Js.split content)
                         ++ keyValueLine e :: drop (S s) (Js.split content))%list
            | Inherited => Js.join (keyValueLine e :: Js.split content)
            | Undefined => content +:+ keyValueLine e +:+ nl
            end
        end
    end.
Proof.
  assert (0 < length (Js.split content)) as Hlen.
  { destruct (split_cons content) as (h & t & ->). simpl. lia. }
  assert (value e = VNull ∨ value e ≠ VNull) as [Hv|Hv]
    by (destruct (value e); auto).
  - rewrite Hv.
    destruct (getIndex (lineIndices (load content)) (key e)) as [|d|] eqn:Hk.
    + unfold updateConfigFile, applyEdits. cbn [foldl].
      rewrite applyEdit_noop by done. apply empty_state_round_trip.
    + apply getIndex_Index in Hk.
      unfold updateConfigFile, applyEdits, serialize. cbn [foldl].
      rewrite (applyEdit_delete _ e d) by done. cbn [lines addedContent load].
      by rewrite splice_delete.
    + unfold updateConfigFile, applyEdits, serialize. cbn [foldl].
      rewrite applyEdit_inherited_delete by done.
      cbn [lines addedContent load]. by rewrite splice_delete.
  - destruct (getIndex (lineIndices (load content)) (key e)) as [|i|] eqn:Hk.
    + destruct (getIndex (sectionIndices (load content))
                  (sectionKey (section e))) as [|s|] eqn:Hs.
      * rewrite append_single by done. by destruct (value e).
      * apply getIndex_Index in Hs.
        unfold updateConfigFile, applyEdits, serialize. cbn [foldl].
        rewrite (applyEdit_insert _ e s) by done. cbn [lines addedContent load].
        unfold Js.splice. rewrite Nat.add_0_r.
        replace (s + 1) with (S s) by lia. by destruct (value e).
      * unfold updateConfigFile, applyEdits, serialize. cbn [foldl].
        rewrite applyEdit_inherited_insert by done.
        cbn [lines addedContent load]. unfold Js.splice. simpl.
        rewrite drop_0. by destruct (value e).
    + apply getIndex_Index in Hk.
      pose proof (recordedAt_lt _ _ _ _ (load_key_recorded _ _ _ Hk)) as Hi.
      unfold updateConfigFile, applyEdits, serialize. cbn [foldl].
      rewrite (applyEdit_replace _ e i) by done. cbn [lines addedContent load].
      rewrite splice_replace by done. by destruct (value e).
    + unfold updateConfigFile, applyEdits, serialize. cbn [foldl].
      rewrite applyEdit_inherited_replace by done.
      cbn [lines addedContent load].
      rewrite splice_replace by done. by destruct (value e).
Qed.

(** The keys and the section that the callers name are no inherited
    names. *)
Lemma caller_names_own :
  ("l1_batch_commit_data_generator_mode" ∉ prototypeNames)
  ∧ ("l1_gas_per_pubdata_byte" ∉ prototypeNames)
  ∧ ("en" ∉ prototypeNames) ∧ ("null" ∉ prototypeNames).
Proof.
  unfold prototypeNames.
  repeat split; intros Hin;
    repeat (apply elem_of_cons in Hin as [Hin|Hin]; [discriminate|]);
    by apply elem_of_nil in Hin.
Qed.

End Callers.

(** X12. [updateExtNodeConfig], case by case.  In roll-up mode the last line
    that defines [l1_batch_commit_data_generator_mode] is removed, and a
    file without the key is written back unchanged.  In Validium mode that
    line is rewritten as [l1_batch_commit_data_generator_mode=Validium];
    without the key the line is inserted directly behind the last header
    [[en]], and without such a header it is put at the end of the content. *)
Theorem ext_node_config_cases (content : string) :
  updateExtNodeConfig false content
  = match lineIndices (load content) !! "l1_batch_commit_data_generator_mode" with
    | Some d => Js.join (delete d (Js.split content))
    | None => content
    end
  ∧ updateExtNodeConfig true content
    = match lineIndices (load content) !! "l1_batch_commit_data_generator_mode" with
      | Some i =>
          Js.join (<[i := "l1_batch_commit_data_generator_mode=Validium"]>
                     (Js.split content))
      | None =>
          match sectionIndices (load content) !! "en" with
          | Some s =>
              Js.join (take (S s) (Js.split content)
                       ++ "l1_batch_commit_data_generator_mode=Validium"
                          :: drop (S s) (Js.split content))%list
          | None =>
              content +:+ "l1_batch_commit_data_generator_mode=Validium" +:+ nl
          end
      end.
Proof.
  destruct caller_names_own as (Hkey & _ & Hen & _).
  unfold updateExtNodeConfig, extNodeConfigLines.
  split; rewrite single_edit_output; cbn [key value section sectionKey];
    rewrite !getIndex_own by done.
  - by destruct (lineIndices (load content) !! _).
  - destruct (lineIndices (load content) !! _); [done|].
    by destruct (sectionIndices (load content) !! _).
Qed.

(** X13. Switching the external-node file to Validium mode and back to
    roll-up mode restores it character for character, when the file has a
    header [[en]] and did not define the key before. *)
Theorem ext_node_validium_then_rollup (content : string) (s : nat) :
  lineIndices (load content) !! "l1_batch_commit_data_generator_mode" = None →
  sectionIndices (load content) !! "en" = Some s →
  updateExtNodeConfig false (updateExtNodeConfig true content) = content.
Proof.
  intros Hk Hs. unfold updateExtNodeConfig, extNodeConfigLines.
  apply (insert_then_delete content _ _ s); try done.
  cbn [key]. rewrite getIndex_own, Hk; [done|]. apply caller_names_own.
Qed.

Lemma ext_node_validium_then_rollup_witness :
  lineIndices (load ("# node" +:+ nl +:+ "[en]" +:+ nl +:+ "port=1" +:+ nl))
    !! "l1_batch_commit_data_generator_mode" = None
  ∧ sectionIndices (load ("# node" +:+ nl +:+ "[en]" +:+ nl +:+ "port=1" +:+ nl))
      !! "en" = Some 1
  ∧ updateExtNodeConfig false
      (updateExtNodeConfig true
         ("# node" +:+ nl +:+ "[en]" +:+ nl +:+ "port=1" +:+ nl))
    = "# node" +:+ nl +:+ "[en]" +:+ nl +:+ "port=1" +:+ nl.
Proof.
  split; [reflexivity|]. split; [reflexivity|].
  apply (ext_node_validium_then_rollup
           ("# node" +:+ nl +:+ "[en]" +:+ nl +:+ "port=1" +:+ nl) 1);
    reflexivity.
Defined.

(** X14. [updateChainConfig] on a file that defines all five keys, with
    constants that are strings or safe integers: the file keeps its number
    of lines, each of the five keys has its line rewritten as key, ['='],
    constant of the chosen mode, and every other line is written back as
    it was read. *)
Theorem chain_config_rewrites_its_lines (constants : Constants)
    (validiumMode : bool) (content : string) :
  Forall (λ e, is_Some (lineIndices (load content) !! key e)
               ∧ value e ≠ VNull ∧ printsInDecimal (value e))
         (chainConfigLines constants validiumMode) →
  ∃ ls', updateChainConfig constants validiumMode content = Js.join ls'
    ∧ length ls' = length (Js.split content)
    ∧ (∀ e i, e ∈ chainConfigLines constants validiumMode →
         lineIndices (load content) !! key e = Some i →
         ls' !! i = Some (keyValueLine e))
    ∧ (∀ j, (∀ e, e ∈ chainConfigLines constants validiumMode →
                  lineIndices (load content) !! key e ≠ Some j) →
         ls' !! j = Js.split content !! j).
Proof.
  intros Hes'.
  assert (Forall (λ e, is_Some (lineIndices (load content) !! key e)
                       ∧ value e ≠ VNull)
            (chainConfigLines constants validiumMode)) as Hes.
  { eapply Forall_impl; [exact Hes'|]. by intros e (Hk & Hv & _). }
  destruct (replace_batch_on_load content _ Hes) as (_ & _ & Had & Hlen & Hframe & Hlast).
  exists (lines (applyEdits (load content) (chainConfigLines constants validiumMode))).
  split.
  { unfold updateChainConfig, updateConfigFile, serialize. by rewrite Had. }
  split; [done|]. split; [|done].
  intros e i He Hi.
  unfold chainConfigLines in He.
  repeat (apply elem_of_cons in He as [->|He]); [..|by apply elem_of_nil in He].
  - apply (Hlast [] _ _ i eq_refl); [|done].
    intros e' He'.
    repeat (apply elem_of_cons in He' as [->|He']); [..|by apply elem_of_nil in He'];
      discriminate.
  - apply (Hlast [_] _ _ i eq_refl); [|done].
    intros e' He'.
    repeat (apply elem_of_cons in He' as [->|He']); [..|by apply elem_of_nil in He'];
      discriminate.
  - apply (Hlast [_; _] _ _ i eq_refl); [|done].
    intros e' He'.
    repeat (apply elem_of_cons in He' as [->|He']); [..|by apply elem_of_nil in He'];
      discriminate.
  - apply (Hlast [_; _; _] _ _ i eq_refl); [|done].
    intros e' He'.
    repeat (apply elem_of_cons in He' as [->|He']); [..|by apply elem_of_nil in He'];
      discriminate.
  - apply (Hlast [_; _; _; _] _ [] i eq_refl); [|done].
    intros e' He'. by apply elem_of_nil in He'.
Qed.

Lemma chain_config_rewrites_its_lines_witness :
  Forall (λ e, is_Some (lineIndices (load exampleChainFile) !! key e)
               ∧ value e ≠ VNull ∧ printsInDecimal (value e))
         (chainConfigLines exampleConstants true)
  ∧ ∃ ls', updateChainConfig exampleConstants true exampleChainFile = Js.join ls'
           ∧ length ls' = length (Js.split exampleChainFile).
Proof.
  assert (Forall (λ e, is_Some (lineIndices (load exampleChainFile) !! key e)
                       ∧ value e ≠ VNull ∧ printsInDecimal (value e))
            (chainConfigLines exampleConstants true)) as Hes.
  { repeat constructor; try discriminate; try (simpl; lia); try exact I;
      vm_compute; eauto. }
  split; [exact Hes|].
  destruct (chain_config_rewrites_its_lines exampleConstants true
              exampleChainFile Hes) as (ls' & Hout & Hlen & _).
  exists ls'. by split.
Defined.

(** The same run, evaluated. *)
Example chain_config_run :
  updateChainConfig exampleConstants true exampleChainFile
  = "[chain.state_keeper]" +:+ nl
    +:+ "compute_overhead_part=1" +:+ nl
    +:+ "pubdata_overhead_part=0" +:+ nl
    +:+ "# gas" +:+ nl
    +:+ "batch_overhead_l1_gas=1000000" +:+ nl
    +:+ "max_pubdata_per_batch=1000000000000" +:+ nl
    +:+ "l1_batch_commit_data_generator_mode=Validium" +:+ nl.
Proof. vm_compute. reflexivity. Qed.

(** ** The environment check *)

Section CheckEnv.

Variable exec : string → option string.

Lemma whichTools_None (tools : list string) :
  whichTools exec tools = None
  ↔ ∀ tool, tool ∈ tools → is_Some (exec ("which " +:+ tool)).
Proof.
  induction tools as [|t r IH]; simpl.
  - split; [|done]. intros _ tool Ht. by apply elem_of_nil in Ht.
  - destruct (exec ("which " +:+ t)) as [out|] eqn:Ht.
    + rewrite IH. split.
      * intros Hr tool [->|Hin]%elem_of_cons; [by rewrite Ht|by apply Hr].
      * intros Hall tool Hin. apply Hall. by right.
    + split; [done|]. intros Hall.
      destruct (Hall t) as [out Hout]; [by left|]. congruence.
Qed.

Lemma checkEnv_version (version : string) :
  (∀ tool, tool ∈ ["node"; "yarn"; "docker"; "cargo"] →
           is_Some (exec ("which " +:+ tool))) →
  exec "node --version" = Some version →
  checkEnv exec = if Js.ltString "v14.14" version then Passed else NodeTooOld.
Proof.
  intros Htools Hv. unfold checkEnv.
  rewrite (proj2 (whichTools_None _) Htools), Hv. unfold Js.geString.
  by destruct (Js.ltString "v14.14" version).
Qed.

End CheckEnv.

(** X15. [checkEnv] returns exactly when [which] finds each of [node],
    [yarn], [docker] and [cargo], [node --version] is not rejected, and
    [v14.14] is smaller than the printed version as a string. *)
Theorem checkEnv_passes_iff (exec : string → option string) :
  checkEnv exec = Passed
  ↔ (∀ tool, tool ∈ ["node"; "yarn"; "docker"; "cargo"] →
             is_Some (exec ("which " +:+ tool)))
    ∧ ∃ version, exec "node --version" = Some version
                 ∧ Js.ltString "v14.14" version = true.
Proof.
  split.
  - unfold checkEnv.
    destruct (whichTools exec _) as [cmd|] eqn:Hw; [done|].
    pose proof (proj1 (whichTools_None exec _) Hw) as Htools.
    destruct (exec "node --version") as [version|]; [|done].
    unfold Js.geString.
    destruct (Js.ltString "v14.14" version) eqn:Hlt; [|done].
    intros _. split; [done|]. by exists version.
  - intros [Htools (version & Hv & Hlt)].
    by rewrite (checkEnv_version exec version Htools Hv), Hlt.
Qed.

(** X16. The version test of [checkEnv] compares characters, not numbers.
    With all tools found: a printed version that goes on behind [v14.14]
    passes; a version whose first character behind the [v] is [2] or
    above passes, so [v9.0.0] does; and a version that starts with [v1] and
    a character below [4] is refused as too old, so [v100.0.0] is. *)
Theorem checkEnv_compares_characters (exec : string → option string)
    (version : string) :
  (∀ tool, tool ∈ ["node"; "yarn"; "docker"; "cargo"] →
           is_Some (exec ("which " +:+ tool))) →
  exec "node --version" = Some version →
  (∀ c rest, version = "v14.14" +:+ String c rest → checkEnv exec = Passed)
  ∧ (∀ c rest, version = String "v" (String c rest) →
               50 ≤ nat_of_ascii c → checkEnv exec = Passed)
  ∧ (∀ c rest, version = String "v" (String "1" (String c rest)) →
               nat_of_ascii c < 52 → checkEnv exec = NodeTooOld).
Proof.
  intros Htools Hv. rewrite (checkEnv_version exec version Htools Hv).
  split; [|split].
  - by intros c rest ->.
  - intros c rest -> Hc. cbn [Js.ltString]. unfold Js.isChar.
    rewrite bool_decide_eq_true_2 by done.
    case_bool_decide as Heq.
    + subst c. vm_compute in Hc. lia.
    + assert ((nat_of_ascii "1" <? nat_of_ascii c) = true) as ->; [|done].
      apply Nat.ltb_lt. change (49 < nat_of_ascii c). lia.
  - intros c rest -> Hc. cbn [Js.ltString]. unfold Js.isChar.
    rewrite !bool_decide_eq_true_2 by done.
    case_bool_decide as Heq.
    + subst c. vm_compute in Hc. lia.
    + assert ((nat_of_ascii "4" <? nat_of_ascii c) = false) as ->; [|done].
      apply Nat.ltb_ge. change (nat_of_ascii c ≤ 52). lia.
Qed.

Lemma checkEnv_compares_characters_witness :
  checkEnv (execWithNode ("v9.0.0" +:+ nl)) = Passed
  ∧ checkEnv (execWithNode ("v100.0.0" +:+ nl)) = NodeTooOld.
Proof.
  split.
  - refine (proj1 (proj2 (checkEnv_compares_characters
                            (execWithNode ("v9.0.0" +:+ nl))
                            ("v9.0.0" +:+ nl) _ eq_refl))
              "9"%char (".0.0" +:+ nl) eq_refl _).
    + intros tool Ht.
      repeat (apply elem_of_cons in Ht as [->|Ht]); [..|by apply elem_of_nil in Ht];
        by eexists.
    + vm_compute. lia.
  - refine (proj2 (proj2 (checkEnv_compares_characters
                            (execWithNode ("v100.0.0" +:+ nl))
                            ("v100.0.0" +:+ nl) _ eq_refl))
              "0"%char ("0.0.0" +:+ nl) eq_refl _).
    + intros tool Ht.
      repeat (apply elem_of_cons in Ht as [->|Ht]); [..|by apply elem_of_nil in Ht];
        by eexists.
    + vm_compute. lia.
Defined.

(** ** The two patterns of the scan *)

(** X17. The scan takes a line for a section header exactly when the line
    is white space, ['['], a non-empty name without [']'], [']'] and white
    space, and captures that name; it takes a line for a key-value line
    exactly when, behind leading ['='] characters, a non-empty text without
    ['='] is followed by ['='], and captures that text.  So [=a=b] is a line
    of the key [a], and a line without text before its only ['='] is no
    key-value line. *)
Theorem scan_patterns (line captured : string) :
  (sectionMatch line = Some captured ↔ sectionShape line captured)
  ∧ (keyMatch line = Some captured ↔ keyShape line captured).
Proof. split; [apply sectionMatch_shape|apply keyMatch_shape]. Qed.

(** X18. [updateEthSenderConfig], with a constant of the chosen mode that is
    a string or a safe integer: the last line that defines [l1_gas_per_pubdata_byte] is
    rewritten with the constant, in roll-up mode as in Validium mode; the
    line is never removed.  Without the key, the line goes to the end of
    the content, or behind a header [[null]] when the file has one. *)
Theorem eth_sender_config_cases (constants : Constants) (validiumMode : bool)
    (content : string) (v : Value) :
  v = (if validiumMode then VALIDIUM_L1_GAS_PER_PUBDATA_BYTE constants
       else ROLLUP_L1_GAS_PER_PUBDATA_BYTE constants) →
  v ≠ VNull →
  printsInDecimal v →
  updateEthSenderConfig constants validiumMode content
  = match lineIndices (load content) !! "l1_gas_per_pubdata_byte" with
    | Some i =>
        Js.join (<[i := "l1_gas_per_pubdata_byte=" +:+ valueToString v]>
                   (Js.split content))
    | None =>
        match sectionIndices (load content) !! "null" with
        | Some s =>
            Js.join (take (S s) (Js.split content)
                     ++ ("l1_gas_per_pubdata_byte=" +:+ valueToString v)
                        :: drop (S s) (Js.split content))%list
        | None =>
            content +:+ ("l1_gas_per_pubdata_byte=" +:+ valueToString v) +:+ nl
        end
    end.
Proof.
  intros Hv Hnn _. destruct caller_names_own as (_ & Hkey & _ & Hnull).
  unfold updateEthSenderConfig, ethSenderConfigLines.
  rewrite single_edit_output. cbn [key value section sectionKey].
  rewrite !getIndex_own by done.
  rewrite <- Hv. unfold keyValueLine. cbn [key value].
  destruct (lineIndices (load content) !! _); [by destruct v|].
  destruct (sectionIndices (load content) !! _); by destruct v.
Qed.

Lemma eth_sender_config_cases_witness :
  VNumber 17 = ROLLUP_L1_GAS_PER_PUBDATA_BYTE exampleConstants
  ∧ updateEthSenderConfig exampleConstants false
      ("[eth_sender]" +:+ nl +:+ "l1_gas_per_pubdata_byte=0" +:+ nl)
    = Js.join (<[1 := "l1_gas_per_pubdata_byte=17"]>
                 ["[eth_sender]"; "l1_gas_per_pubdata_byte=0"; ""]).
Proof.
  split; [reflexivity|].
  apply (eth_sender_config_cases exampleConstants false
           ("[eth_sender]" +:+ nl +:+ "l1_gas_per_pubdata_byte=0" +:+ nl)
           (VNumber 17)).
  - reflexivity.
  - discriminate.
  - simpl. lia.
Defined.

(** ** Names inherited from the prototype *)

Lemma getIndex_Inherited (m : gmap string nat) (k : string) :
  m !! k = None → k ∈ prototypeNames → getIndex m k = Inherited.
Proof.
  intros Hnone Hk. unfold getIndex. rewrite Hnone.
  by rewrite bool_decide_eq_true_2.
Qed.

(** X19. An edit whose key is a name inherited from [Object.prototype], and
    is not recorded by the scan, is taken for an edit of an existing key:
    with [null] the first line of the file is removed, with a value the
    first line is overwritten by key, ['='], value, and no index entry is
    changed.  For [__proto__] this is so whatever the file holds. *)
Theorem inherited_key_edits_line_zero (content : string) (e : ConfigLine) :
  key e ∈ prototypeNames →
  lineIndices (load content) !! key e = None →
  lineIndices (applyEdit (load content) e) = lineIndices (load content)
  ∧ sectionIndices (applyEdit (load content) e) = sectionIndices (load content)
  ∧ (value e = VNull →
       updateConfigFile content [e] = Js.join (delete 0 (Js.split content)))
  ∧ (value e ≠ VNull → printsInDecimal (value e) →
       updateConfigFile content [e]
       = Js.join (<[0 := keyValueLine e]> (Js.split content)))
  ∧ lineIndices (load content) !! "__proto__" = None.
Proof.
  intros Hk Hnone.
  pose proof (getIndex_Inherited _ _ Hnone Hk) as Hget.
  assert (value e = VNull ∨ value e ≠ VNull) as [Hv|Hv]
    by (destruct (value e); auto).
  - rewrite applyEdit_inherited_delete by done.
    cbn [lineIndices sectionIndices].
    do 2 (split; [done|]). split; [|split; [done|apply load_key_proto]].
    intros _. rewrite single_edit_output, Hget. by rewrite Hv.
  - rewrite applyEdit_inherited_replace by done.
    cbn [lineIndices sectionIndices].
    do 2 (split; [done|]). split; [done|]. split; [|apply load_key_proto].
    intros _ _. rewrite single_edit_output, Hget. by destruct (value e).
Qed.

Lemma inherited_key_edits_line_zero_witness :
  lineIndices (load ("foo=1" +:+ nl +:+ "bar=2" +:+ nl)) !! "constructor" = None
  ∧ updateConfigFile ("foo=1" +:+ nl +:+ "bar=2" +:+ nl)
      [ {| key := "constructor"; value := VNumber 1; section := None |} ]
    = Js.join (<[0 := "constructor=1"]> ["foo=1"; "bar=2"; ""]).
Proof.
  split; [reflexivity|].
  refine (proj1 (proj2 (proj2 (proj2
            (inherited_key_edits_line_zero ("foo=1" +:+ nl +:+ "bar=2" +:+ nl)
               {| key := "constructor"; value := VNumber 1; section := None |}
               _ eq_refl)))) _ _).
  - apply (list_elem_of_lookup_2 _ 0). reflexivity.
  - discriminate.
  - simpl. lia.
Defined.

(** X20. An edit with a value for a new key whose section name is a name
    inherited from [Object.prototype], and is no header of the file, is
    taken for an edit inside a section: its line is put in front of the
    first line of the file and no index entry is changed. *)
Theorem inherited_section_inserts_in_front (content : string) (e : ConfigLine) :
  getIndex (lineIndices (load content)) (key e) = Undefined →
  value e ≠ VNull →
  printsInDecimal (value e) →
  sectionKey (section e) ∈ prototypeNames →
  sectionIndices (load content) !! sectionKey (section e) = None →
  updateConfigFile content [e] = Js.join (keyValueLine e :: Js.split content)
  ∧ lineIndices (applyEdit (load content) e) = lineIndices (load content)
  ∧ sectionIndices (applyEdit (load content) e) = sectionIndices (load content).
Proof.
  intros Hk Hv _ Hs Hnone.
  pose proof (getIndex_Inherited _ _ Hnone Hs) as Hget.
  rewrite applyEdit_inherited_insert by done.
  cbn [lineIndices sectionIndices]. split; [|done].
  rewrite single_edit_output, Hk, Hget. by destruct (value e).
Qed.

Lemma inherited_section_inserts_in_front_witness :
  getIndex (lineIndices (load ("[en]" +:+ nl +:+ "foo=1"))) "bar" = Undefined
  ∧ sectionIndices (load ("[en]" +:+ nl +:+ "foo=1")) !! "toString" = None
  ∧ updateConfigFile ("[en]" +:+ nl +:+ "foo=1")
      [ {| key := "bar"; value := VNumber 2; section := Some "toString" |} ]
    = Js.join ["bar=2"; "[en]"; "foo=1"].
Proof.
  split; [reflexivity|]. split; [reflexivity|].
  refine (proj1 (inherited_section_inserts_in_front ("[en]" +:+ nl +:+ "foo=1")
                   {| key := "bar"; value := VNumber 2; section := Some "toString" |}
                   eq_refl _ _ _ eq_refl)).
  - discriminate.
  - simpl. lia.
  - apply (list_elem_of_lookup_2 _ 8). reflexivity.
Defined.
